(** * The control-plane core of the NGINX Kubernetes Gateway, in Rocq

    A shallow embedding of three Go packages of the repository:

    - [relationship] (the [Capturer], file [relationship.go]),
    - [resolver]     (the [ServiceResolverImpl], file [resolver.go]),
    - [state]        (the [ChangeProcessorImpl] and the upstream builder,
                      files [change_processor.go] and [upstreams.go]),

    followed by the properties of the specification that are stated
    about them.

    Conventions.  Go methods that mutate their receiver become functions
    from the receiver's state to its new state.  A Go [map] is a [gmap], a
    [map[K]struct{}] is a [gset]; reading a missing key yields the zero
    value, which is written out with [default].  A Go slice that may be
    [nil] is an [option (list _)].  Go's [int] is the 64-bit two's
    complement integer and [int32] the 32-bit one, each a [Z] with its
    wrap-around written out.  A [panic] is a result of its own. *)

From Stdlib Require Import ZArith Lia DecimalString DecimalPos DecimalZ.
From stdpp Require Import gmap strings list fin_maps.

(* ===================================================================== *)
(** * Part I: definitions                                                 *)
(* ===================================================================== *)

(** ** Go machine integers *)

Module goint.
Local Open Scope Z_scope.

(** The value of the unbounded integer [x] as a [w]-bit signed integer. *)
Definition wrap (w : Z) (x : Z) : Z := (x + 2 ^ (w - 1)) mod 2 ^ w - 2 ^ (w - 1).

(** Go's [int], 64 bits wide on the platforms the controller is built for. *)
Definition int (x : Z) : Z := wrap 64 x.

(** Go's [int32]; [int32 x] is the conversion [int32(x)]. *)
Definition int32 (x : Z) : Z := wrap 32 x.

Definition maxInt : Z := 2 ^ 63 - 1.

End goint.

(** ** Kubernetes API types, reduced to the fields the code reads *)

Module types.

(** [k8s.io/apimachinery/pkg/types.NamespacedName] *)
Record NamespacedName := { Namespace : string; Name : string }.

#[global] Instance NamespacedName_eq_dec : EqDecision NamespacedName.
Proof. solve_decision. Defined.

#[global] Program Instance NamespacedName_countable : Countable NamespacedName :=
  inj_countable' (λ n, (Namespace n, Name n))
                 (λ p, {| Namespace := p.1; Name := p.2 |}) _.
Next Obligation. by intros []. Qed.

End types.

Module metav1.

Module OwnerReference.
Record t := { Kind : string; Name : string }.
End OwnerReference.

(** The embedded [ObjectMeta] of every object. *)
Record ObjectMeta := {
  Namespace : string;
  Name : string;
  Generation : Z;
  Labels : gmap string string;
  OwnerReferences : list OwnerReference.t
}.

End metav1.

Module v1beta1.

(** [BackendRef] with its embedded [BackendObjectReference]; the optional
    fields are Go pointers. *)
Module BackendRef.
Record t := {
  Kind : option string;
  Name : string;
  Namespace : option string;
  Port : option Z
}.
End BackendRef.

(** The test [ref.Kind != nil && *ref.Kind != "Service"] that both
    extractions of backend service names make. *)
Definition notAService (ref : BackendRef.t) : bool :=
  match BackendRef.Kind ref with
  | Some kind => bool_decide (kind ≠ "Service")
  | None => false
  end.

Record HTTPBackendRef := { BackendRef : BackendRef.t }.

Record HTTPRouteRule := { BackendRefs : list HTTPBackendRef }.

Record HTTPRouteSpec := { Rules : list HTTPRouteRule }.

Module HTTPRoute.
Record t := { ObjectMeta : metav1.ObjectMeta; Spec : HTTPRouteSpec }.
End HTTPRoute.

Module Gateway.
Record t := { ObjectMeta : metav1.ObjectMeta; GatewayClassName : string }.
End Gateway.

Module GatewayClass.
Record t := { ObjectMeta : metav1.ObjectMeta; ControllerName : string }.
End GatewayClass.

End v1beta1.

Module intstr.

(** The Go type [intstr.Type] with its two constants; the field [Type] of
    [IntOrString] is [Typ] here. *)
Inductive Type_ := Int | String.

(** [k8s.io/apimachinery/pkg/util/intstr.IntOrString] *)
Record IntOrString := { Typ : Type_; IntVal : Z; StrVal : string }.

(** [FromInt] stores [int32(val)]. *)
Definition FromInt (val : Z) : IntOrString :=
  {| Typ := Int; IntVal := goint.int32 val; StrVal := "" |}.

Definition FromString (val : string) : IntOrString :=
  {| Typ := String; IntVal := 0; StrVal := val |}.

(** [IntValue] returns the [IntVal] of an integer, and the result of
    [strconv.Atoi] on the [StrVal] of a string, whose error is dropped.
    [Atoi], of Go's standard library, is taken as it is. *)
Definition IntValue (Atoi : string → Z) (i : IntOrString) : Z :=
  match Typ i with
  | String => Atoi (StrVal i)
  | Int => IntVal i
  end.

End intstr.

Module v1.

Record ServicePort := { Port : Z; TargetPort : intstr.IntOrString }.

Record ServiceSpec := { Ports : list ServicePort }.

Module Service.
Record t := { ObjectMeta : metav1.ObjectMeta; Spec : ServiceSpec }.
End Service.

End v1.

Module discoveryV1.

Definition AddressType := string.
Definition AddressTypeIPv4 : AddressType := "IPv4".
Definition AddressTypeIPv6 : AddressType := "IPv6".
Definition AddressTypeFQDN : AddressType := "FQDN".

Record EndpointConditions := { Ready : option bool }.

Record Endpoint := { Addresses : list string; Conditions : EndpointConditions }.

Record EndpointPort := { Port : option Z }.

Module EndpointSlice.
Record t := {
  ObjectMeta : metav1.ObjectMeta;
  AddressType : AddressType;
  Endpoints : list Endpoint;
  Ports : list EndpointPort
}.
End EndpointSlice.

End discoveryV1.

Module client.

(** [client.Object]: the interface value with its dynamic type.  The five
    kinds the controller handles, and any other object. *)
Inductive Object :=
| GatewayClass (o : v1beta1.GatewayClass.t)
| Gateway (o : v1beta1.Gateway.t)
| HTTPRoute (o : v1beta1.HTTPRoute.t)
| Service (o : v1.Service.t)
| EndpointSlice (o : discoveryV1.EndpointSlice.t)
| Other (kind : string) (o : metav1.ObjectMeta).

Definition meta (obj : Object) : metav1.ObjectMeta :=
  match obj with
  | GatewayClass o => v1beta1.GatewayClass.ObjectMeta o
  | Gateway o => v1beta1.Gateway.ObjectMeta o
  | HTTPRoute o => v1beta1.HTTPRoute.ObjectMeta o
  | Service o => v1.Service.ObjectMeta o
  | EndpointSlice o => discoveryV1.EndpointSlice.ObjectMeta o
  | Other _ o => o
  end.

Definition ObjectKey (m : metav1.ObjectMeta) : types.NamespacedName :=
  {| types.Namespace := metav1.Namespace m; types.Name := metav1.Name m |}.

(** [client.ObjectKeyFromObject] *)
Definition ObjectKeyFromObject (obj : Object) : types.NamespacedName :=
  ObjectKey (meta obj).

End client.

(** ** Package [relationship]: the Capturer *)

Module relationship.
Import types.
Local Open Scope Z_scope.

Record Capturer := {
  routesToServices : gmap NamespacedName (gset NamespacedName);
  serviceRefCount : gmap NamespacedName Z;
  endpointSliceOwners : gmap NamespacedName NamespacedName
}.

Definition NewCapturer : Capturer :=
  {| routesToServices := ∅; serviceRefCount := ∅; endpointSliceOwners := ∅ |}.

(** [c.serviceRefCount[k]] as an expression: zero for a missing key. *)
Definition refCount (c : Capturer) (k : NamespacedName) : Z :=
  default 0 (serviceRefCount c !! k).

Definition withServiceRefCount (c : Capturer) (m : gmap NamespacedName Z) : Capturer :=
  {| routesToServices := routesToServices c;
     serviceRefCount := m;
     endpointSliceOwners := endpointSliceOwners c |}.

Definition decrementRefCount (svcName : NamespacedName) (c : Capturer) : Capturer :=
  if decide (refCount c svcName = 1)
  then withServiceRefCount c (delete svcName (serviceRefCount c))
  else withServiceRefCount c
         (<[svcName := goint.int (refCount c svcName - 1)]> (serviceRefCount c)).

(** The statement [c.serviceRefCount[svc]++]. *)
Definition incrementRefCount (svc : NamespacedName) (c : Capturer) : Capturer :=
  withServiceRefCount c
    (<[svc := goint.int (refCount c svc + 1)]> (serviceRefCount c)).

(** One iteration of the loop of [getBackendServiceNamesFromRoute]. *)
Definition addBackendServiceName (hr : v1beta1.HTTPRoute.t)
    (svcNames : gset NamespacedName) (rule : v1beta1.HTTPRouteRule)
    : gset NamespacedName :=
  match v1beta1.BackendRefs rule with
  | [] => svcNames
  | r :: _ =>
      let ref := v1beta1.BackendRef r in
      if v1beta1.notAService ref then svcNames
      else
        let ns := default (metav1.Namespace (v1beta1.HTTPRoute.ObjectMeta hr))
                          (v1beta1.BackendRef.Namespace ref) in
        {[ {| Namespace := ns; Name := v1beta1.BackendRef.Name ref |} ]} ∪ svcNames
  end.

Definition getBackendServiceNamesFromRoute (hr : v1beta1.HTTPRoute.t)
    : gset NamespacedName :=
  foldl (addBackendServiceName hr) ∅ (v1beta1.Rules (v1beta1.HTTPRoute.Spec hr)).

(** The first loop of [upsertForRoute], over the keys of [oldServices] in
    the order [keys] in which Go happens to enumerate them. *)
Definition dropUnreferenced (newServices : gset NamespacedName)
    (keys : list NamespacedName) (c : Capturer) : Capturer :=
  foldl (λ c svc, if decide (svc ∈ newServices) then c else decrementRefCount svc c)
        c keys.

(** The second loop of [upsertForRoute], over the keys of [newServices]. *)
Definition addReferenced (oldServices : gset NamespacedName)
    (keys : list NamespacedName) (c : Capturer) : Capturer :=
  foldl (λ c svc, if decide (svc ∈ oldServices) then c else incrementRefCount svc c)
        c keys.

Definition routeKey (route : v1beta1.HTTPRoute.t) : NamespacedName :=
  client.ObjectKeyFromObject (client.HTTPRoute route).

(** [upsertForRoute] with the two enumeration orders made explicit. *)
Definition upsertForRouteIn (oldKeys newKeys : list NamespacedName)
    (route : v1beta1.HTTPRoute.t) (c : Capturer) : Capturer :=
  let oldServices := default ∅ (routesToServices c !! routeKey route) in
  let newServices := getBackendServiceNamesFromRoute route in
  let c1 := dropUnreferenced newServices oldKeys c in
  let c2 := addReferenced oldServices newKeys c1 in
  {| routesToServices := <[routeKey route := newServices]> (routesToServices c2);
     serviceRefCount := serviceRefCount c2;
     endpointSliceOwners := endpointSliceOwners c2 |}.

Definition upsertForRoute (route : v1beta1.HTTPRoute.t) (c : Capturer) : Capturer :=
  upsertForRouteIn
    (elements (default ∅ (routesToServices c !! routeKey route)))
    (elements (getBackendServiceNamesFromRoute route))
    route c.

(** [deleteForRoute] with the enumeration order of [services] explicit. *)
Definition deleteForRouteIn (keys : list NamespacedName)
    (routeName : NamespacedName) (c : Capturer) : Capturer :=
  let c1 := foldl (λ c svc, decrementRefCount svc c) c keys in
  {| routesToServices := delete routeName (routesToServices c1);
     serviceRefCount := serviceRefCount c1;
     endpointSliceOwners := endpointSliceOwners c1 |}.

Definition deleteForRoute (routeName : NamespacedName) (c : Capturer) : Capturer :=
  deleteForRouteIn (elements (default ∅ (routesToServices c !! routeName))) routeName c.

Section Capturer.

(** [sdk.GetServiceNameFromEndpointSlice], of package [sdk]: the name of the
    Service that owns the slice, or the empty string. *)
Variable GetServiceNameFromEndpointSlice : discoveryV1.EndpointSlice.t → string.

Definition Capture (obj : client.Object) (c : Capturer) : Capturer :=
  match obj with
  | client.HTTPRoute o => upsertForRoute o c
  | client.EndpointSlice o =>
      let svcName := GetServiceNameFromEndpointSlice o in
      if decide (svcName ≠ "")
      then {| routesToServices := routesToServices c;
              serviceRefCount := serviceRefCount c;
              endpointSliceOwners :=
                <[client.ObjectKeyFromObject obj :=
                    {| Namespace := metav1.Namespace (discoveryV1.EndpointSlice.ObjectMeta o);
                       Name := svcName |}]> (endpointSliceOwners c) |}
      else c
  | _ => c
  end.

Definition Remove (resourceType : client.Object) (nsname : NamespacedName)
    (c : Capturer) : Capturer :=
  match resourceType with
  | client.HTTPRoute _ => deleteForRoute nsname c
  | client.EndpointSlice _ =>
      {| routesToServices := routesToServices c;
         serviceRefCount := serviceRefCount c;
         endpointSliceOwners := delete nsname (endpointSliceOwners c) |}
  | _ => c
  end.

Definition Exists (resourceType : client.Object) (nsname : NamespacedName)
    (c : Capturer) : bool :=
  match resourceType with
  | client.Service _ => bool_decide (refCount c nsname > 0)
  | client.EndpointSlice _ =>
      match endpointSliceOwners c !! nsname with
      | Some svcOwner => bool_decide (refCount c svcOwner > 0)
      | None => false
      end
  | _ => false
  end.

(** A call on the Capturer, and the replay of a sequence of calls. *)
Inductive Call :=
| CallCapture (obj : client.Object)
| CallRemove (resourceType : client.Object) (nsname : NamespacedName).

Definition call (c : Capturer) (op : Call) : Capturer :=
  match op with
  | CallCapture obj => Capture obj c
  | CallRemove resourceType nsname => Remove resourceType nsname c
  end.

Definition replay (ops : list Call) : Capturer := foldl call NewCapturer ops.

End Capturer.

(** What the specification counts: the backend service set last captured
    for each route that has not been removed since ... *)
Definition lastCaptured (ops : list Call) : gmap NamespacedName (gset NamespacedName) :=
  foldl (λ m op,
           match op with
           | CallCapture (client.HTTPRoute o) =>
               <[routeKey o := getBackendServiceNamesFromRoute o]> m
           | CallRemove (client.HTTPRoute _) nsname => delete nsname m
           | _ => m
           end) ∅ ops.

(** ... and the number of routes whose set contains the service [s]. *)
Definition referencing (m : gmap NamespacedName (gset NamespacedName))
    (s : NamespacedName) : nat :=
  size (filter (λ kv, s ∈ kv.2) m).

(** The entry of [serviceRefCount] that goes with that number: none when
    it is zero. *)
Definition expectedCount (m : gmap NamespacedName (gset NamespacedName))
    (s : NamespacedName) : option Z :=
  if decide (referencing m s = 0%nat) then None
  else Some (Z.of_nat (referencing m s)).

(** The invariant of the Capturer. *)
Definition consistent (c : Capturer) : Prop :=
  ∀ s, serviceRefCount c !! s = expectedCount (routesToServices c) s.

(** What [decrementRefCount] and [c.serviceRefCount[svc]++] do to the
    entry of the service. *)
Definition decremented (o : option Z) : option Z :=
  if decide (default 0 o = 1) then None else Some (goint.int (default 0 o - 1)).

Definition incremented (o : option Z) : option Z :=
  Some (goint.int (default 0 o + 1)).

End relationship.

(** ** Package [resolver]: from a Service and a port to its endpoints *)

Module resolver.
Import types.
Local Open Scope Z_scope.

(** The internal representation of a Kubernetes endpoint. *)
Record Endpoint := { Address : string; Port : Z }.

(** The errors of the package, one constructor per [fmt.Errorf]:
    - ["cannot resolve a nil Service"],
    - ["no endpoints found for Service %s"],
    - ["no valid endpoints found for Service %s and port %d"],
    - ["no matching target port for Service %s/%s and port %d"]. *)
Inductive error :=
| ErrNilService
| ErrNoEndpointsFound (svc : NamespacedName)
| ErrNoValidEndpoints (svc : NamespacedName) (svcPort : Z)
| ErrNoMatchingTargetPort (namespace name : string) (svcPort : Z).

(** What a call can do: return a value, return an error, or panic. *)
Inductive result (A : Type) :=
| Ok (a : A)
| Err (e : error)
| Panic.
Arguments Ok {A} a.
Arguments Err {A} e.
Arguments Panic {A}.

(** A [[]Endpoint] under construction: its elements, its capacity, and the
    number of times [append] had to move it to a larger backing array (a
    ghost field, which no code reads). *)
Record slice := { elems : list Endpoint; cap : Z; reallocs : nat }.

(** [make([]Endpoint, 0, capacity)] *)
Definition make (capacity : Z) : slice :=
  {| elems := []; cap := capacity; reallocs := 0 |}.

(** [client.Client], reduced to the one query the resolver makes: the
    EndpointSlices indexed under a Service name in a namespace, or the
    failure of the query. *)
Record Client := { List : string → string → option (list discoveryV1.EndpointSlice.t) }.

Record ServiceResolverImpl := { client : Client }.

Definition NewServiceResolverImpl (client : Client) : ServiceResolverImpl :=
  {| client := client |}.

Definition endpointReady (endpoint : discoveryV1.Endpoint) : bool :=
  match discoveryV1.Ready (discoveryV1.Conditions endpoint) with
  | Some ready => ready
  | None => false
  end.

Fixpoint targetPortExists (ports : list discoveryV1.EndpointPort) (targetPort : Z) : bool :=
  match ports with
  | [] => false
  | port :: ports' =>
      match discoveryV1.Port port with
      | None => targetPortExists ports' targetPort
      | Some p => if decide (p = targetPort) then true
                  else targetPortExists ports' targetPort
      end
  end.

Definition ignoreEndpointSlice (endpointSlice : discoveryV1.EndpointSlice.t)
    (targetPort : Z) : bool :=
  bool_decide (discoveryV1.EndpointSlice.AddressType endpointSlice
               ≠ discoveryV1.AddressTypeIPv4)
  || negb (targetPortExists (discoveryV1.EndpointSlice.Ports endpointSlice) targetPort).

(** The inner loop of [calculateEndpointSliceCapacity]. *)
Definition addReadyAddresses (capacity : Z) (endpoints : list discoveryV1.Endpoint) : Z :=
  foldl (λ capacity e,
           if endpointReady e
           then goint.int (capacity + Z.of_nat (length (discoveryV1.Addresses e)))
           else capacity)
        capacity endpoints.

Definition calculateEndpointSliceCapacity
    (endpointSlices : list discoveryV1.EndpointSlice.t) (targetPort : Z) : Z :=
  foldl (λ capacity es,
           if ignoreEndpointSlice es targetPort then capacity
           else addReadyAddresses capacity (discoveryV1.EndpointSlice.Endpoints es))
        0 endpointSlices.

Section Resolver.

(** [strconv.Atoi], of Go's standard library, with its error dropped. *)
Variable Atoi : string → Z.

(** The capacity the Go runtime gives a full slice of the given capacity
    when [append] has to grow it. *)
Variable growslice : Z → Z.

(** [append(s, ep)] *)
Definition append (s : slice) (ep : Endpoint) : slice :=
  if decide (Z.of_nat (length (elems s)) < cap s)
  then {| elems := elems s ++ [ep]; cap := cap s; reallocs := reallocs s |}
  else {| elems := elems s ++ [ep]; cap := growslice (cap s);
          reallocs := S (reallocs s) |}.

(** The loop of [getTargetPort]: [None] when it ends, by exhaustion or by
    [break], without having returned. *)
Fixpoint findTargetPort (ports : list v1.ServicePort) (svcPort : Z) : option Z :=
  match ports with
  | [] => None
  | port :: ports' =>
      if decide (v1.Port port = svcPort)
      then let val := intstr.IntValue Atoi (v1.TargetPort port) in
           if decide (val = 0) then None else Some (goint.int32 val)
      else findTargetPort ports' svcPort
  end.

Definition getTargetPort (svc : v1.Service.t) (svcPort : Z) : result Z :=
  match findTargetPort (v1.Ports (v1.Service.Spec svc)) svcPort with
  | Some targetPort => Ok targetPort
  | None =>
      Err (ErrNoMatchingTargetPort (metav1.Namespace (v1.Service.ObjectMeta svc))
                                   (metav1.Name (v1.Service.ObjectMeta svc)) svcPort)
  end.

(** The three nested loops of [resolveEndpoints], innermost first. *)
Definition appendAddresses (targetPort : Z) (endpoints : slice)
    (addresses : list string) : slice :=
  foldl (λ endpoints address,
           append endpoints {| Address := address; Port := targetPort |})
        endpoints addresses.

Definition appendReady (targetPort : Z) (endpoints : slice)
    (eps : list discoveryV1.Endpoint) : slice :=
  foldl (λ endpoints endpoint,
           if negb (endpointReady endpoint) then endpoints
           else appendAddresses targetPort endpoints (discoveryV1.Addresses endpoint))
        endpoints eps.

Definition enumerate (targetPort : Z) (endpoints : slice)
    (items : list discoveryV1.EndpointSlice.t) : slice :=
  foldl (λ endpoints eps,
           if ignoreEndpointSlice eps targetPort then endpoints
           else appendReady targetPort endpoints (discoveryV1.EndpointSlice.Endpoints eps))
        endpoints items.

Definition resolveEndpoints (svc : v1.Service.t) (svcPort : Z)
    (items : list discoveryV1.EndpointSlice.t) : result slice :=
  match getTargetPort svc svcPort with
  | Ok targetPort =>
      let capacity := calculateEndpointSliceCapacity items targetPort in
      if decide (capacity = 0)
      then Err (ErrNoValidEndpoints (client.ObjectKeyFromObject (client.Service svc)) svcPort)
      else if decide (capacity < 0) then Panic (* [make] with a negative capacity *)
      else Ok (enumerate targetPort (make capacity) items)
  | Err e => Err e
  | Panic => Panic
  end.

Definition Resolve (e : ServiceResolverImpl) (svc : option v1.Service.t) (svcPort : Z)
    : result slice :=
  match svc with
  | None => Err ErrNilService
  | Some svc =>
      match List (client e) (metav1.Name (v1.Service.ObjectMeta svc))
                 (metav1.Namespace (v1.Service.ObjectMeta svc)) with
      | None => Err (ErrNoEndpointsFound (client.ObjectKeyFromObject (client.Service svc)))
      | Some items =>
          if decide (length items = 0%nat)
          then Err (ErrNoEndpointsFound (client.ObjectKeyFromObject (client.Service svc)))
          else resolveEndpoints svc svcPort items
      end
  end.

End Resolver.

(** A slice [s] to which [l] has been appended in place. *)
Definition extended (s : slice) (l : list Endpoint) (s' : slice) : Prop :=
  elems s' = elems s ++ l
  ∧ (Z.of_nat (length (elems s)) + Z.of_nat (length l) ≤ cap s →
     cap s' = cap s ∧ reallocs s' = reallocs s).

(** The endpoints the specification describes: for each slice that is not
    ignored, for each ready endpoint, one pair per listed address. *)
Definition emitted (targetPort : Z) (items : list discoveryV1.EndpointSlice.t)
    : list Endpoint :=
  es ← filter (λ es, ignoreEndpointSlice es targetPort = false) items;
  e ← filter (λ e, endpointReady e = true) (discoveryV1.EndpointSlice.Endpoints es);
  (λ address, {| Address := address; Port := targetPort |}) <$> discoveryV1.Addresses e.

End resolver.

(** ** Package [state]: upstreams *)

Module state.
Import types.
Local Open Scope Z_scope.

(** [fmt]'s verb [%d]: the decimal numeral of an integer, with a leading
    minus sign when it is negative. *)
Definition formatInt (z : Z) : string := NilEmpty.string_of_int (Z.to_int z).

(** Modelled from the spec: the declaration of [backendService] is not
    part of the sources at hand; the graph keys its backends by
    [(namespace, serviceName, port)], and the tests build it with the
    fields [name], [namespace] and [port]. *)
Record backendService := { name : string; namespace : string; port : Z }.

#[global] Instance backendService_eq_dec : EqDecision backendService.
Proof. solve_decision. Defined.

#[global] Program Instance backendService_countable : Countable backendService :=
  inj_countable' (λ s, (name s, namespace s, port s))
                 (λ p, {| name := p.1.1; namespace := p.1.2; port := p.2 |}) _.
Next Obligation. by intros []. Qed.

(** Modelled from the spec: [backend] and [Upstream] are declared outside
    the sources at hand; a backend carries its resolved endpoint list, an
    upstream is [Upstream{Name, Endpoints}].  Both lists are Go slices,
    which are [nil] ([None]) or hold elements, possibly none ([Some []]). *)
Record backend := { Endpoints : option (list resolver.Endpoint) }.

Module Upstream.
Record t := { Name : string; Endpoints : option (list resolver.Endpoint) }.
End Upstream.

(** Whether a string ends in a decimal digit. *)
Definition isDigit (a : Ascii.ascii) : bool :=
  (48 <=? Ascii.N_of_ascii a)%N && (Ascii.N_of_ascii a <=? 57)%N.

Fixpoint endsInDigit (s : string) : bool :=
  match s with
  | EmptyString => false
  | String a s' =>
      match s' with
      | EmptyString => isDigit a
      | String _ _ => endsInDigit s'
      end
  end.

(** The upstream name for a backend ref that is invalid. *)
Definition InvalidBackendRef : string := "invalid_backend_ref".

Definition generateUpstreamName (service : backendService) : string :=
  if decide (name service = "") then InvalidBackendRef
  else namespace service +:+ "_" +:+ name service +:+ "_" +:+ formatInt (port service).

(** [buildUpstreams] over the entries of [backends] in the order [entries]
    in which Go happens to enumerate the map.  The result of
    [make([]Upstream, 0, n)] and [append] is never [nil]. *)
Definition buildUpstreamsIn (entries : list (backendService * backend))
    : option (list Upstream.t) :=
  Some (foldl (λ upstreams '(svc, b),
                 upstreams ++ [ {| Upstream.Name := generateUpstreamName svc;
                                   Upstream.Endpoints := Endpoints b |} ])
              [] entries).

Definition buildUpstreams (backends : gmap backendService backend)
    : option (list Upstream.t) :=
  buildUpstreamsIn (map_to_list backends).

(** ** Package [state]: the change processor *)

(** Modelled from the spec: the declaration of [store] and [newStore] are
    not part of the sources at hand; these are the fields the change
    processor reads and writes, and an empty store has all its mappings
    present and empty. *)
Record store := {
  gc : option v1beta1.GatewayClass.t;
  gateways : gmap NamespacedName v1beta1.Gateway.t;
  httpRoutes : gmap NamespacedName v1beta1.HTTPRoute.t;
  services : gmap NamespacedName (gset NamespacedName);
  endpointSlices : gmap NamespacedName discoveryV1.EndpointSlice.t
}.

Definition newStore : store :=
  {| gc := None; gateways := ∅; httpRoutes := ∅; services := ∅; endpointSlices := ∅ |}.

(** The names of [ChangeProcessorConfig].  Its secret memory manager and
    service store are only handed to [buildGraph], and its logger only
    receives the warnings of [buildGraph]. *)
Record ChangeProcessorConfig := { GatewayCtlrName : string; GatewayClassName : string }.

(** The state behind a [*ChangeProcessorImpl]; every method holds the lock
    of the processor from its first to its last statement, so a call is
    one step on this state. *)
Record ChangeProcessorImpl := {
  c_store : store;
  storeChanged : bool;
  cfg : ChangeProcessorConfig
}.

Definition NewChangeProcessorImpl (cfg : ChangeProcessorConfig) : ChangeProcessorImpl :=
  {| c_store := newStore; storeChanged := false; cfg := cfg |}.

(** The two panics of the change processor:
    ["gatewayclass resource must be %s, got %s"] and
    ["ChangeProcessor doesn't support %T"]. *)
Inductive panic :=
| PanicGatewayClassName (want got : string)
| PanicUnsupported (obj : client.Object).

Inductive outcome (A : Type) :=
| Returns (a : A)
| Panics (p : panic).
Arguments Returns {A} a.
Arguments Panics {A} p.

Definition withStore (c : ChangeProcessorImpl) (s : store) : ChangeProcessorImpl :=
  {| c_store := s; storeChanged := storeChanged c; cfg := cfg c |}.

(** [getNamespacedName], a helper of the package: the key of an object. *)
Definition getNamespacedName (obj : client.Object) : NamespacedName :=
  client.ObjectKeyFromObject obj.

(** The [getBackendServiceNamesFromRoute] of this package returns a slice,
    with one entry per rule that names a Service. *)
Definition getBackendServiceNamesFromRoute (hr : v1beta1.HTTPRoute.t)
    : list NamespacedName :=
  foldl (λ svcNames rule,
           match v1beta1.BackendRefs rule with
           | [] => svcNames
           | r :: _ =>
               let ref := v1beta1.BackendRef r in
               if v1beta1.notAService ref then svcNames
               else
                 let ns := default (metav1.Namespace (v1beta1.HTTPRoute.ObjectMeta hr))
                                   (v1beta1.BackendRef.Namespace ref) in
                 svcNames ++ [ {| Namespace := ns; Name := v1beta1.BackendRef.Name ref |} ]
           end)
        [] (v1beta1.Rules (v1beta1.HTTPRoute.Spec hr)).

Definition updateServicesMap (hr : v1beta1.HTTPRoute.t) (s : store) : store :=
  let svcNames := getBackendServiceNamesFromRoute hr in
  {| gc := gc s; gateways := gateways s; httpRoutes := httpRoutes s;
     services :=
       foldl (λ services svcNsname,
                match services !! svcNsname with
                | None =>
                    <[svcNsname := {[ getNamespacedName (client.HTTPRoute hr) ]}]> services
                | Some existingRoutesForSvc =>
                    <[svcNsname := {[ getNamespacedName (client.HTTPRoute hr) ]}
                                   ∪ existingRoutesForSvc]> services
                end)
             (services s) svcNames;
     endpointSlices := endpointSlices s |}.

Definition removeRouteFromServicesMap (hr : v1beta1.HTTPRoute.t) (s : store) : store :=
  let backendServiceNames := getBackendServiceNamesFromRoute hr in
  {| gc := gc s; gateways := gateways s; httpRoutes := httpRoutes s;
     services :=
       foldl (λ services svcName,
                match services !! svcName with
                | Some routesForSvc =>
                    let routesForSvc' :=
                      routesForSvc ∖ {[ getNamespacedName (client.HTTPRoute hr) ]} in
                    if decide (size routesForSvc' = 0%nat)
                    then delete svcName services
                    else <[svcName := routesForSvc']> services
                | None => services
                end)
             (services s) backendServiceNames;
     endpointSlices := endpointSlices s |}.

(** The loop of [updateNeededForEndpointSlice]. *)
Fixpoint ownedByStoredService (s : store) (namespace : string)
    (ownerRefs : list metav1.OwnerReference.t) : bool :=
  match ownerRefs with
  | [] => false
  | ownerRef :: ownerRefs' =>
      if decide (metav1.OwnerReference.Kind ownerRef ≠ "Service")
      then ownedByStoredService s namespace ownerRefs'
      else
        let svcNsname := {| Namespace := namespace;
                            Name := metav1.OwnerReference.Name ownerRef |} in
        match services s !! svcNsname with
        | Some _ => true
        | None => ownedByStoredService s namespace ownerRefs'
        end
  end.

Definition updateNeededForEndpointSlice (endpointSlice : discoveryV1.EndpointSlice.t)
    (s : store) : bool :=
  ownedByStoredService s
    (metav1.Namespace (discoveryV1.EndpointSlice.ObjectMeta endpointSlice))
    (metav1.OwnerReferences (discoveryV1.EndpointSlice.ObjectMeta endpointSlice)).

Definition Generation (obj : client.Object) : Z := metav1.Generation (client.meta obj).

(** The [capture...Change] methods return the processor and the flag
    [resourceChanged]. *)
Definition captureGatewayClassChange (o : v1beta1.GatewayClass.t) (c : ChangeProcessorImpl)
    : outcome (ChangeProcessorImpl * bool) :=
  if decide (metav1.Name (v1beta1.GatewayClass.ObjectMeta o) ≠ GatewayClassName (cfg c))
  then Panics (PanicGatewayClassName (GatewayClassName (cfg c))
                                     (metav1.Name (v1beta1.GatewayClass.ObjectMeta o)))
  else
    let resourceChanged :=
      match gc (c_store c) with
      | Some prev =>
          if decide (Generation (client.GatewayClass prev)
                     = Generation (client.GatewayClass o))
          then false else true
      | None => true
      end in
    let s := c_store c in
    Returns (withStore c {| gc := Some o; gateways := gateways s;
                            httpRoutes := httpRoutes s; services := services s;
                            endpointSlices := endpointSlices s |},
             resourceChanged).

Definition captureGatewayChange (gw : v1beta1.Gateway.t) (c : ChangeProcessorImpl)
    : ChangeProcessorImpl * bool :=
  let resourceChanged :=
    match gateways (c_store c) !! getNamespacedName (client.Gateway gw) with
    | Some prev =>
        if decide (Generation (client.Gateway gw) = Generation (client.Gateway prev))
        then false else true
    | None => true
    end in
  let s := c_store c in
  (withStore c {| gc := gc s;
                  gateways := <[getNamespacedName (client.Gateway gw) := gw]> (gateways s);
                  httpRoutes := httpRoutes s; services := services s;
                  endpointSlices := endpointSlices s |},
   resourceChanged).

Definition captureHTTPRouteChange (hr : v1beta1.HTTPRoute.t) (c : ChangeProcessorImpl)
    : ChangeProcessorImpl * bool :=
  let resourceChanged :=
    match httpRoutes (c_store c) !! getNamespacedName (client.HTTPRoute hr) with
    | Some prev =>
        if decide (Generation (client.HTTPRoute hr) = Generation (client.HTTPRoute prev))
        then false else true
    | None => true
    end in
  let s := c_store c in
  (withStore c
     (updateServicesMap hr
        {| gc := gc s; gateways := gateways s;
           httpRoutes := <[getNamespacedName (client.HTTPRoute hr) := hr]> (httpRoutes s);
           services := services s; endpointSlices := endpointSlices s |}),
   resourceChanged).

Definition captureServiceChange (svc : v1.Service.t) (c : ChangeProcessorImpl)
    : ChangeProcessorImpl * bool :=
  (c, bool_decide (is_Some (services (c_store c) !! getNamespacedName (client.Service svc)))).

Definition captureEndpointSliceChange (es : discoveryV1.EndpointSlice.t)
    (c : ChangeProcessorImpl) : ChangeProcessorImpl * bool :=
  if updateNeededForEndpointSlice es (c_store c)
  then
    let s := c_store c in
    (withStore c {| gc := gc s; gateways := gateways s; httpRoutes := httpRoutes s;
                    services := services s;
                    endpointSlices :=
                      <[getNamespacedName (client.EndpointSlice es) := es]>
                        (endpointSlices s) |},
     true)
  else (c, false).

(** The last statement of both capture methods. *)
Definition markChanged (r : ChangeProcessorImpl * bool) : ChangeProcessorImpl :=
  {| c_store := c_store r.1; storeChanged := storeChanged r.1 || r.2; cfg := cfg r.1 |}.

Definition CaptureUpsertChange (obj : client.Object) (c : ChangeProcessorImpl)
    : outcome ChangeProcessorImpl :=
  match obj with
  | client.GatewayClass o =>
      match captureGatewayClassChange o c with
      | Returns r => Returns (markChanged r)
      | Panics p => Panics p
      end
  | client.Gateway o => Returns (markChanged (captureGatewayChange o c))
  | client.HTTPRoute o => Returns (markChanged (captureHTTPRouteChange o c))
  | client.Service o => Returns (markChanged (captureServiceChange o c))
  | client.EndpointSlice o => Returns (markChanged (captureEndpointSliceChange o c))
  | client.Other _ _ => Panics (PanicUnsupported obj)
  end.

Definition CaptureDeleteChange (resourceType : client.Object) (nsname : NamespacedName)
    (c : ChangeProcessorImpl) : outcome ChangeProcessorImpl :=
  let s := c_store c in
  match resourceType with
  | client.GatewayClass _ =>
      if decide (Name nsname ≠ GatewayClassName (cfg c))
      then Panics (PanicGatewayClassName (GatewayClassName (cfg c)) (Name nsname))
      else Returns (markChanged
                      (withStore c {| gc := None; gateways := gateways s;
                                      httpRoutes := httpRoutes s; services := services s;
                                      endpointSlices := endpointSlices s |},
                       true))
  | client.Gateway _ =>
      Returns (markChanged
                 (withStore c {| gc := gc s; gateways := delete nsname (gateways s);
                                 httpRoutes := httpRoutes s; services := services s;
                                 endpointSlices := endpointSlices s |},
                  true))
  | client.HTTPRoute _ =>
      let s1 := match httpRoutes s !! nsname with
                | Some r => removeRouteFromServicesMap r s
                | None => s
                end in
      Returns (markChanged
                 (withStore c {| gc := gc s1; gateways := gateways s1;
                                 httpRoutes := delete nsname (httpRoutes s1);
                                 services := services s1;
                                 endpointSlices := endpointSlices s1 |},
                  true))
  | client.Service _ =>
      Returns (markChanged (c, bool_decide (is_Some (services s !! nsname))))
  | client.EndpointSlice _ =>
      let resourceChanged :=
        match endpointSlices s !! nsname with
        | Some es => updateNeededForEndpointSlice es s
        | None => false
        end in
      Returns (markChanged
                 (withStore c {| gc := gc s; gateways := gateways s;
                                 httpRoutes := httpRoutes s; services := services s;
                                 endpointSlices := delete nsname (endpointSlices s) |},
                  resourceChanged))
  | client.Other _ _ => Panics (PanicUnsupported resourceType)
  end.

Section Process.

(** Modelled from the spec: the graph builder, the configuration builder
    and the status builder are not part of the sources at hand, nor are the
    types [graph], [Warnings], [VirtualServer] and [Statuses]; they are
    taken as they are.  The zero value of [Statuses] is [zeroStatuses]. *)
Variables graph Warnings VirtualServer Statuses : Type.

(** Modelled from the spec: [Configuration{HTTPServers, SSLServers,
    Upstreams}], three Go slices. *)
Record Configuration := {
  HTTPServers : option (list VirtualServer);
  SSLServers : option (list VirtualServer);
  Upstreams : option (list Upstream.t)
}.

(** The zero value of [Configuration]. *)
Definition zeroConfiguration : Configuration :=
  {| HTTPServers := None; SSLServers := None; Upstreams := None |}.

Variable zeroStatuses : Statuses.
Variable buildGraph : store → string → string → graph * Warnings.
Variable buildConfiguration : graph → Configuration.
Variable buildStatuses : graph → Statuses.

(** [Process] returns the processor and [(changed, conf, statuses)]; the
    warnings of the graph only go to the logger. *)
Definition Process (c : ChangeProcessorImpl)
    : ChangeProcessorImpl * (bool * Configuration * Statuses) :=
  if negb (storeChanged c)
  then (c, (false, zeroConfiguration, zeroStatuses))
  else
    let c' := {| c_store := c_store c; storeChanged := false; cfg := cfg c |} in
    let '(g, warnings) :=
      buildGraph (c_store c') (GatewayCtlrName (cfg c')) (GatewayClassName (cfg c')) in
    let conf := buildConfiguration g in
    let statuses := buildStatuses g in
    (c', (true, conf, statuses)).

(** The calls a client of the processor makes, and a run of them from a
    given state; a panic ends the run. *)
Inductive Call :=
| CallUpsert (obj : client.Object)
| CallDelete (resourceType : client.Object) (nsname : NamespacedName)
| CallProcess.

Definition call (op : Call) (c : ChangeProcessorImpl) : outcome ChangeProcessorImpl :=
  match op with
  | CallUpsert obj => CaptureUpsertChange obj c
  | CallDelete resourceType nsname => CaptureDeleteChange resourceType nsname c
  | CallProcess => Returns (Process c).1
  end.

Fixpoint run (ops : list Call) (c : ChangeProcessorImpl) : outcome ChangeProcessorImpl :=
  match ops with
  | [] => Returns c
  | op :: ops' =>
      match call op c with
      | Returns c' => run ops' c'
      | Panics p => Panics p
      end
  end.

End Process.

(** An object of one of the three kinds whose upserts are compared by
    [Generation], with a predecessor of the same key and an equal
    [Generation] in the store. *)
Definition hasPredecessor (obj : client.Object) (c : ChangeProcessorImpl) : Prop :=
  match obj with
  | client.GatewayClass o =>
      ∃ prev, gc (c_store c) = Some prev
              ∧ metav1.Name (v1beta1.GatewayClass.ObjectMeta prev)
                = metav1.Name (v1beta1.GatewayClass.ObjectMeta o)
              ∧ metav1.Generation (v1beta1.GatewayClass.ObjectMeta prev)
                = metav1.Generation (v1beta1.GatewayClass.ObjectMeta o)
  | client.Gateway o =>
      ∃ prev, gateways (c_store c) !! getNamespacedName obj = Some prev
              ∧ metav1.Generation (v1beta1.Gateway.ObjectMeta prev)
                = metav1.Generation (v1beta1.Gateway.ObjectMeta o)
  | client.HTTPRoute o =>
      ∃ prev, httpRoutes (c_store c) !! getNamespacedName obj = Some prev
              ∧ metav1.Generation (v1beta1.HTTPRoute.ObjectMeta prev)
                = metav1.Generation (v1beta1.HTTPRoute.ObjectMeta o)
  | _ => False
  end.

(** A delete of one of the three kinds that the processor never looks up
    before it marks the store as changed; the name of a GatewayClass must
    be the one the processor manages. *)
Definition deletedUnconditionally (resourceType : client.Object) (nsname : NamespacedName)
    (c : ChangeProcessorImpl) : Prop :=
  match resourceType with
  | client.GatewayClass _ => Name nsname = GatewayClassName (cfg c)
  | client.Gateway _ | client.HTTPRoute _ => True
  | _ => False
  end.

(** The stored GatewayClass, if any, has the name the processor manages. *)
Definition gcNamed (c : ChangeProcessorImpl) : Prop :=
  ∀ o, gc (c_store c) = Some o →
       metav1.Name (v1beta1.GatewayClass.ObjectMeta o) = GatewayClassName (cfg c).

(** Whether a string has an underscore; the names and namespaces of
    Kubernetes objects have none. *)
Fixpoint hasUnderscore (s : string) : bool :=
  match s with
  | EmptyString => false
  | String a s' => if (Ascii.N_of_ascii a =? 95)%N then true else hasUnderscore s'
  end.

(** What one iteration of [removeRouteFromServicesMap] leaves of the entry
    of a service: the routes without the route [k], or no entry when
    there is none left. *)
Definition withoutRoute (k : NamespacedName) (o : option (gset NamespacedName))
    : option (gset NamespacedName) :=
  match o with
  | Some routesForSvc =>
      if decide (size (routesForSvc ∖ {[ k ]}) = 0%nat) then None
      else Some (routesForSvc ∖ {[ k ]})
  | None => None
  end.

(** Every stored route is stored under its own key, and every Service it
    names is in the routes-per-service index, with the route among its
    routes. *)
Definition routesIndexed (s : store) : Prop :=
  ∀ k hr, httpRoutes s !! k = Some hr →
    k = getNamespacedName (client.HTTPRoute hr)
    ∧ ∀ svc, svc ∈ getBackendServiceNamesFromRoute hr →
        ∃ routesForSvc, services s !! svc = Some routesForSvc ∧ k ∈ routesForSvc.

(** No entry of the index is an empty set. *)
Definition noEmptyEntry (s : store) : Prop :=
  ∀ svc routesForSvc, services s !! svc = Some routesForSvc → routesForSvc ≠ ∅.

(** The store holds exactly [obj] under the key of [obj]. *)
Definition holds (obj : client.Object) (c : ChangeProcessorImpl) : Prop :=
  match obj with
  | client.GatewayClass o => gc (c_store c) = Some o
  | client.Gateway o => gateways (c_store c) !! getNamespacedName obj = Some o
  | client.HTTPRoute o => httpRoutes (c_store c) !! getNamespacedName obj = Some o
  | _ => False
  end.

End state.


(** ** Sample objects, after the tests of the repository *)

Module samples.
Import types.
Local Open Scope Z_scope.

Definition objectMeta (namespace name : string) (generation : Z) : metav1.ObjectMeta :=
  {| metav1.Namespace := namespace; metav1.Name := name;
     metav1.Generation := generation; metav1.Labels := ∅;
     metav1.OwnerReferences := [] |}.

(** [getNormalRefs] of [TestGetBackendServiceNamesFromRoute]. *)
Definition normalRef (svcName : string) : v1beta1.BackendRef.t :=
  {| v1beta1.BackendRef.Kind := Some "Service";
     v1beta1.BackendRef.Name := svcName;
     v1beta1.BackendRef.Namespace := Some "test";
     v1beta1.BackendRef.Port := Some 80 |}.

Definition ruleOf (refs : list v1beta1.BackendRef.t) : v1beta1.HTTPRouteRule :=
  {| v1beta1.BackendRefs := v1beta1.Build_HTTPBackendRef <$> refs |}.

(** The route of [TestGetBackendServiceNamesFromRoute]. *)
Definition testRoute : v1beta1.HTTPRoute.t :=
  {| v1beta1.HTTPRoute.ObjectMeta := objectMeta "test" "" 0;
     v1beta1.HTTPRoute.Spec :=
       {| v1beta1.Rules :=
            [ ruleOf [normalRef "svc1"];
              ruleOf [normalRef "svc1"];
              ruleOf [ {| v1beta1.BackendRef.Kind := Some "Invalid";
                          v1beta1.BackendRef.Name := "invalid-kind";
                          v1beta1.BackendRef.Namespace := Some "test";
                          v1beta1.BackendRef.Port := Some 80 |} ];
              ruleOf [ {| v1beta1.BackendRef.Kind := Some "Service";
                          v1beta1.BackendRef.Name := "nil-namespace";
                          v1beta1.BackendRef.Namespace := None;
                          v1beta1.BackendRef.Port := Some 80 |} ];
              ruleOf [ {| v1beta1.BackendRef.Kind := Some "Service";
                          v1beta1.BackendRef.Name := "diff-namespace";
                          v1beta1.BackendRef.Namespace := Some "not-test";
                          v1beta1.BackendRef.Port := Some 80 |} ];
              ruleOf [];
              ruleOf [normalRef "svc2"] ] |} |}.

(** A route [test/name] of the given generation with one rule per service
    name, each naming that Service of namespace [test]. *)
Definition route (name : string) (generation : Z) (svcNames : list string)
    : v1beta1.HTTPRoute.t :=
  {| v1beta1.HTTPRoute.ObjectMeta := objectMeta "test" name generation;
     v1beta1.HTTPRoute.Spec :=
       {| v1beta1.Rules := (λ svc, ruleOf [normalRef svc]) <$> svcNames |} |}.

Definition hr1 : v1beta1.HTTPRoute.t := route "hr-1" 1 ["foo"].
Definition hr2 : v1beta1.HTTPRoute.t := route "hr-2" 1 ["foo"; "bar"].

(** A stand-in for [sdk.GetServiceNameFromEndpointSlice]: the label
    [kubernetes.io/service-name] of the slice. *)
Definition serviceNameLabel (es : discoveryV1.EndpointSlice.t) : string :=
  default "" (metav1.Labels (discoveryV1.EndpointSlice.ObjectMeta es)
              !! "kubernetes.io/service-name").

(** A stand-in for [strconv.Atoi]: the value of a string of decimal
    digits, and zero for any other string. *)
Fixpoint digitsValue (acc : Z) (s : string) : option Z :=
  match s with
  | EmptyString => Some acc
  | String a s' =>
      let d := Z.of_N (Ascii.N_of_ascii a) - 48 in
      if decide (0 ≤ d ≤ 9) then digitsValue (10 * acc + d) s' else None
  end.

Definition atoi (s : string) : Z :=
  match s with
  | EmptyString => 0
  | _ => default 0 (digitsValue 0 s)
  end.

(** A stand-in for the growth of a full slice: to twice its capacity and
    one more. *)
Definition grow (cap : Z) : Z := 2 * cap + 1.

(** The services of [TestGetTargetPort]. *)
Definition serviceOf (ports : list v1.ServicePort) : v1.Service.t :=
  {| v1.Service.ObjectMeta := objectMeta "test" "svc" 1;
     v1.Service.Spec := {| v1.Ports := ports |} |}.

Definition svcIntTargetPort : v1.Service.t :=
  serviceOf [ {| v1.Port := 443; v1.TargetPort := intstr.FromInt 8443 |};
              {| v1.Port := 80; v1.TargetPort := intstr.FromInt 8080 |} ].

Definition svcStringTargetPort : v1.Service.t :=
  serviceOf [ {| v1.Port := 443; v1.TargetPort := intstr.FromInt 8443 |};
              {| v1.Port := 80; v1.TargetPort := intstr.FromString "8080" |} ].

Definition svcNoTargetPort : v1.Service.t :=
  serviceOf [ {| v1.Port := 80; v1.TargetPort := intstr.FromInt 0 |} ].

(** The endpoints and slices of [TestCalculateEndpointSliceCapacity]. *)
Definition addresses : list string := ["10.0.0.1"; "10.0.0.2"; "10.0.0.3"].

Definition readyEndpoint1 : discoveryV1.Endpoint :=
  {| discoveryV1.Addresses := addresses;
     discoveryV1.Conditions := {| discoveryV1.Ready := Some true |} |}.

Definition notReadyEndpoint : discoveryV1.Endpoint :=
  {| discoveryV1.Addresses := addresses;
     discoveryV1.Conditions := {| discoveryV1.Ready := Some false |} |}.

Definition sliceOf (addressType : discoveryV1.AddressType)
    (endpoints : list discoveryV1.Endpoint) (ports : list Z)
    : discoveryV1.EndpointSlice.t :=
  {| discoveryV1.EndpointSlice.ObjectMeta := objectMeta "test" "svc-slice" 1;
     discoveryV1.EndpointSlice.AddressType := addressType;
     discoveryV1.EndpointSlice.Endpoints := endpoints;
     discoveryV1.EndpointSlice.Ports :=
       (λ p, {| discoveryV1.Port := Some p |}) <$> ports |}.

Definition validEndpointSlice : discoveryV1.EndpointSlice.t :=
  sliceOf discoveryV1.AddressTypeIPv4
          [readyEndpoint1; readyEndpoint1; readyEndpoint1] [80; 443].

Definition invalidAddressTypeEndpointSlice : discoveryV1.EndpointSlice.t :=
  sliceOf discoveryV1.AddressTypeIPv6 [readyEndpoint1] [80].

Definition invalidPortEndpointSlice : discoveryV1.EndpointSlice.t :=
  sliceOf discoveryV1.AddressTypeIPv4 [readyEndpoint1] [8080].

Definition notReadyEndpointSlice : discoveryV1.EndpointSlice.t :=
  sliceOf discoveryV1.AddressTypeIPv4 [notReadyEndpoint; notReadyEndpoint] [80; 443].

Definition mixedValidityEndpointSlice : discoveryV1.EndpointSlice.t :=
  sliceOf discoveryV1.AddressTypeIPv4
          [readyEndpoint1; notReadyEndpoint; readyEndpoint1] [80].

(** A resolver whose client answers every query with the given slices. *)
Definition resolverOver (items : list discoveryV1.EndpointSlice.t)
    : resolver.ServiceResolverImpl :=
  resolver.NewServiceResolverImpl {| resolver.List := λ _ _, Some items |}.

Definition svcTargetPort80 : v1.Service.t :=
  serviceOf [ {| v1.Port := 80; v1.TargetPort := intstr.FromInt 80 |} ].

(** The six endpoints of the two ready endpoints of
    [mixedValidityEndpointSlice], in a slice of capacity six. *)
Definition sixEndpoints : resolver.slice :=
  {| resolver.elems :=
       (λ address, {| resolver.Address := address; resolver.Port := 80 |})
         <$> (addresses ++ addresses);
     resolver.cap := 6;
     resolver.reallocs := 0 |}.

(** The backends of [TestBuildUpstreams] with no endpoints. *)
Definition nilEndpointsSvc : state.backendService :=
  {| state.name := "nil-endpoints"; state.namespace := "test"; state.port := 443 |}.

Definition emptyEndpointsSvc : state.backendService :=
  {| state.name := "empty-endpoints"; state.namespace := "test"; state.port := 443 |}.

(** A processor configuration, a managed GatewayClass and a Gateway. *)
Definition cfg : state.ChangeProcessorConfig :=
  {| state.GatewayCtlrName := "k8s-gateway.nginx.org/nginx-gateway-controller";
     state.GatewayClassName := "nginx" |}.

Definition gatewayClass (generation : Z) : v1beta1.GatewayClass.t :=
  {| v1beta1.GatewayClass.ObjectMeta := objectMeta "" "nginx" generation;
     v1beta1.GatewayClass.ControllerName :=
       "k8s-gateway.nginx.org/nginx-gateway-controller" |}.

Definition gateway (generation : Z) : v1beta1.Gateway.t :=
  {| v1beta1.Gateway.ObjectMeta := objectMeta "test" "gateway" generation;
     v1beta1.Gateway.GatewayClassName := "nginx" |}.

(** Stand-ins for the builders that [Process] calls: the graph is the
    store itself, without warnings; the configuration has no servers and
    the upstreams of no backends; the statuses say nothing. *)
Definition buildGraph (s : state.store) (ctlrName className : string)
    : state.store * unit := (s, tt).

Definition buildConfiguration (g : state.store) : state.Configuration unit :=
  {| state.HTTPServers := Some []; state.SSLServers := Some [];
     state.Upstreams := state.buildUpstreams ∅ |}.

Definition buildStatuses (g : state.store) : unit := tt.

(** A Service [test/foo], and a processor whose index holds the route
    [test/hr-1] for it. *)
Definition svcFoo : v1.Service.t :=
  {| v1.Service.ObjectMeta := objectMeta "test" "foo" 1;
     v1.Service.Spec := {| v1.Ports := [] |} |}.

Definition indexedProcessor : state.ChangeProcessorImpl :=
  {| state.c_store :=
       {| state.gc := None; state.gateways := ∅; state.httpRoutes := ∅;
          state.services :=
            {[ {| types.Namespace := "test"; types.Name := "foo" |}
               := {[ {| types.Namespace := "test"; types.Name := "hr-1" |} ]} ]};
          state.endpointSlices := ∅ |};
     state.storeChanged := true;
     state.cfg := cfg |}.

End samples.

(* ===================================================================== *)
(** * Part II: properties                                                 *)
(* ===================================================================== *)

(** ** Machine integers *)

Module goint_facts.
Local Open Scope Z_scope.

Lemma int_small x : - 2 ^ 63 ≤ x < 2 ^ 63 → goint.int x = x.
Proof.
  intros Hx. unfold goint.int, goint.wrap.
  rewrite Z.mod_small; lia.
Qed.

Lemma int_nat (n : nat) : Z.of_nat n ≤ goint.maxInt → goint.int (Z.of_nat n) = Z.of_nat n.
Proof. unfold goint.maxInt. intros Hn. apply int_small. lia. Qed.

End goint_facts.

(** ** The Capturer *)

Module relationship_facts.
Import types relationship.
Local Open Scope Z_scope.

Lemma Capturer_eq c1 c2 :
  routesToServices c1 = routesToServices c2 →
  serviceRefCount c1 = serviceRefCount c2 →
  endpointSliceOwners c1 = endpointSliceOwners c2 →
  c1 = c2.
Proof. destruct c1, c2; simpl; congruence. Qed.

(** *** The two counter updates, entry by entry *)

Lemma decrementRefCount_lookup svc c s :
  serviceRefCount (decrementRefCount svc c) !! s
  = if decide (s = svc) then decremented (serviceRefCount c !! svc)
    else serviceRefCount c !! s.
Proof.
  unfold decrementRefCount, decremented, refCount.
  destruct (decide (default 0 (serviceRefCount c !! svc) = 1)); simpl;
    destruct (decide (s = svc)) as [->|]; simplify_map_eq; done.
Qed.

Lemma incrementRefCount_lookup svc c s :
  serviceRefCount (incrementRefCount svc c) !! s
  = if decide (s = svc) then incremented (serviceRefCount c !! svc)
    else serviceRefCount c !! s.
Proof.
  unfold incrementRefCount, incremented, refCount; simpl.
  destruct (decide (s = svc)) as [->|]; simplify_map_eq; done.
Qed.

Lemma decrementRefCount_frame svc c :
  routesToServices (decrementRefCount svc c) = routesToServices c
  ∧ endpointSliceOwners (decrementRefCount svc c) = endpointSliceOwners c.
Proof. unfold decrementRefCount. by case_decide. Qed.

Lemma incrementRefCount_frame svc c :
  routesToServices (incrementRefCount svc c) = routesToServices c
  ∧ endpointSliceOwners (incrementRefCount svc c) = endpointSliceOwners c.
Proof. done. Qed.

(** *** The loops of [upsertForRoute] and [deleteForRoute] *)

Lemma dropUnreferenced_frame new keys c :
  routesToServices (dropUnreferenced new keys c) = routesToServices c
  ∧ endpointSliceOwners (dropUnreferenced new keys c) = endpointSliceOwners c.
Proof.
  unfold dropUnreferenced. revert c.
  induction keys as [|k keys IH]; intros c; simpl; [done|].
  destruct (IH (if decide (k ∈ new) then c else decrementRefCount k c)) as [-> ->].
  case_decide; [done|apply decrementRefCount_frame].
Qed.

Lemma addReferenced_frame old keys c :
  routesToServices (addReferenced old keys c) = routesToServices c
  ∧ endpointSliceOwners (addReferenced old keys c) = endpointSliceOwners c.
Proof.
  unfold addReferenced. revert c.
  induction keys as [|k keys IH]; intros c; simpl; [done|].
  destruct (IH (if decide (k ∈ old) then c else incrementRefCount k c)) as [-> ->].
  by case_decide.
Qed.

Lemma dropUnreferenced_lookup new keys c s :
  NoDup keys →
  serviceRefCount (dropUnreferenced new keys c) !! s
  = if decide (s ∈ keys ∧ s ∉ new) then decremented (serviceRefCount c !! s)
    else serviceRefCount c !! s.
Proof.
  unfold dropUnreferenced. intros Hnd. revert c.
  induction Hnd as [|k keys Hk Hnd IH]; intros c; cbn [foldl].
  - rewrite decide_False; [done|]. intros [[]%elem_of_nil _].
  - rewrite IH. destruct (decide (s = k)) as [->|Hne].
    + rewrite (decide_False (P := k ∈ keys ∧ _)) by tauto.
      destruct (decide (k ∈ new)).
      * rewrite decide_False; [done|tauto].
      * rewrite decrementRefCount_lookup, decide_True by done.
        rewrite decide_True; [done|]. split; [left|done].
    + assert (serviceRefCount (if decide (k ∈ new) then c else decrementRefCount k c) !! s
              = serviceRefCount c !! s) as ->.
      { destruct (decide (k ∈ new)); [done|].
        by rewrite decrementRefCount_lookup, decide_False. }
      apply decide_ext. rewrite elem_of_cons. tauto.
Qed.

Lemma addReferenced_lookup old keys c s :
  NoDup keys →
  serviceRefCount (addReferenced old keys c) !! s
  = if decide (s ∈ keys ∧ s ∉ old) then incremented (serviceRefCount c !! s)
    else serviceRefCount c !! s.
Proof.
  unfold addReferenced. intros Hnd. revert c.
  induction Hnd as [|k keys Hk Hnd IH]; intros c; cbn [foldl].
  - rewrite decide_False; [done|]. intros [[]%elem_of_nil _].
  - rewrite IH. destruct (decide (s = k)) as [->|Hne].
    + rewrite (decide_False (P := k ∈ keys ∧ _)) by tauto.
      destruct (decide (k ∈ old)).
      * rewrite decide_False; [done|tauto].
      * rewrite incrementRefCount_lookup, decide_True by done.
        rewrite decide_True; [done|]. split; [left|done].
    + assert (serviceRefCount (if decide (k ∈ old) then c else incrementRefCount k c) !! s
              = serviceRefCount c !! s) as ->.
      { destruct (decide (k ∈ old)); [done|].
        by rewrite incrementRefCount_lookup, decide_False. }
      apply decide_ext. rewrite elem_of_cons. tauto.
Qed.

Lemma decrementAll_frame keys c :
  routesToServices (foldl (λ c svc, decrementRefCount svc c) c keys) = routesToServices c
  ∧ endpointSliceOwners (foldl (λ c svc, decrementRefCount svc c) c keys)
    = endpointSliceOwners c.
Proof.
  revert c. induction keys as [|k keys IH]; intros c; simpl; [done|].
  destruct (IH (decrementRefCount k c)) as [-> ->]. apply decrementRefCount_frame.
Qed.

Lemma decrementAll_lookup keys c s :
  NoDup keys →
  serviceRefCount (foldl (λ c svc, decrementRefCount svc c) c keys) !! s
  = if decide (s ∈ keys) then decremented (serviceRefCount c !! s)
    else serviceRefCount c !! s.
Proof.
  intros Hnd. revert c.
  induction Hnd as [|k keys Hk Hnd IH]; intros c; cbn [foldl].
  - rewrite decide_False; [done|]. by intros ?%elem_of_nil.
  - rewrite IH, decrementRefCount_lookup. destruct (decide (s = k)) as [->|Hne].
    + rewrite decide_False by done. rewrite decide_True; [done|left].
    + apply decide_ext. rewrite elem_of_cons. tauto.
Qed.

Lemma upsertForRouteIn_frame oldKeys newKeys route c :
  routesToServices (upsertForRouteIn oldKeys newKeys route c)
  = <[routeKey route := getBackendServiceNamesFromRoute route]> (routesToServices c)
  ∧ endpointSliceOwners (upsertForRouteIn oldKeys newKeys route c)
    = endpointSliceOwners c.
Proof.
  unfold upsertForRouteIn; simpl.
  destruct (addReferenced_frame (default ∅ (routesToServices c !! routeKey route)) newKeys
              (dropUnreferenced (getBackendServiceNamesFromRoute route) oldKeys c))
    as [-> ->].
  by destruct (dropUnreferenced_frame (getBackendServiceNamesFromRoute route) oldKeys c)
    as [-> ->].
Qed.

Lemma upsertForRouteIn_lookup oldKeys newKeys route c s :
  let old := default ∅ (routesToServices c !! routeKey route) in
  let new := getBackendServiceNamesFromRoute route in
  NoDup oldKeys → NoDup newKeys →
  (∀ x, x ∈ oldKeys ↔ x ∈ old) → (∀ x, x ∈ newKeys ↔ x ∈ new) →
  serviceRefCount (upsertForRouteIn oldKeys newKeys route c) !! s
  = if decide (s ∈ old ∧ s ∉ new) then decremented (serviceRefCount c !! s)
    else if decide (s ∈ new ∧ s ∉ old) then incremented (serviceRefCount c !! s)
    else serviceRefCount c !! s.
Proof.
  intros old new Hnd1 Hnd2 Hold Hnew. unfold upsertForRouteIn; simpl.
  fold old new. rewrite addReferenced_lookup, dropUnreferenced_lookup by done.
  destruct (decide (s ∈ old ∧ s ∉ new)) as [[H1 H2]|H1].
  - rewrite decide_False by (rewrite Hnew; tauto).
    rewrite decide_True; [done|]. by rewrite Hold.
  - rewrite (decide_False (P := s ∈ oldKeys ∧ _)) by (by rewrite Hold).
    apply decide_ext. by rewrite Hnew.
Qed.

Lemma deleteForRouteIn_frame keys routeName c :
  routesToServices (deleteForRouteIn keys routeName c)
  = delete routeName (routesToServices c)
  ∧ endpointSliceOwners (deleteForRouteIn keys routeName c) = endpointSliceOwners c.
Proof.
  unfold deleteForRouteIn; simpl. by destruct (decrementAll_frame keys c) as [-> ->].
Qed.

Lemma deleteForRouteIn_lookup keys routeName c s :
  NoDup keys →
  (∀ x, x ∈ keys ↔ x ∈ default ∅ (routesToServices c !! routeName)) →
  serviceRefCount (deleteForRouteIn keys routeName c) !! s
  = if decide (s ∈ default ∅ (routesToServices c !! routeName))
    then decremented (serviceRefCount c !! s)
    else serviceRefCount c !! s.
Proof.
  intros Hnd Hkeys. unfold deleteForRouteIn; simpl.
  rewrite decrementAll_lookup by done. apply decide_ext, Hkeys.
Qed.

(** Go enumerates the keys of a map in an order of its choosing.  The
    result of neither method depends on it. *)
Lemma upsertForRoute_any_order oldKeys newKeys route c :
  oldKeys ≡ₚ elements (default ∅ (routesToServices c !! routeKey route)) →
  newKeys ≡ₚ elements (getBackendServiceNamesFromRoute route) →
  upsertForRouteIn oldKeys newKeys route c = upsertForRoute route c.
Proof.
  intros Hold Hnew. unfold upsertForRoute. apply Capturer_eq.
  - by rewrite !(proj1 (upsertForRouteIn_frame _ _ _ _)).
  - apply map_eq; intros s. rewrite !upsertForRouteIn_lookup; try done.
    + apply NoDup_elements.
    + apply NoDup_elements.
    + intros x. apply elem_of_elements.
    + intros x. apply elem_of_elements.
    + rewrite Hold. apply NoDup_elements.
    + rewrite Hnew. apply NoDup_elements.
    + intros x. rewrite Hold. apply elem_of_elements.
    + intros x. rewrite Hnew. apply elem_of_elements.
  - by rewrite !(proj2 (upsertForRouteIn_frame _ _ _ _)).
Qed.

Lemma deleteForRoute_any_order keys routeName c :
  keys ≡ₚ elements (default ∅ (routesToServices c !! routeName)) →
  deleteForRouteIn keys routeName c = deleteForRoute routeName c.
Proof.
  intros Hkeys. unfold deleteForRoute. apply Capturer_eq.
  - by rewrite !(proj1 (deleteForRouteIn_frame _ _ _)).
  - apply map_eq; intros s. rewrite !deleteForRouteIn_lookup; try done.
    + apply NoDup_elements.
    + intros x. apply elem_of_elements.
    + rewrite Hkeys. apply NoDup_elements.
    + intros x. rewrite Hkeys. apply elem_of_elements.
  - by rewrite !(proj2 (deleteForRouteIn_frame _ _ _)).
Qed.

Lemma upsertForRoute_frame route c :
  routesToServices (upsertForRoute route c)
  = <[routeKey route := getBackendServiceNamesFromRoute route]> (routesToServices c)
  ∧ endpointSliceOwners (upsertForRoute route c) = endpointSliceOwners c.
Proof. apply upsertForRouteIn_frame. Qed.

Lemma upsertForRoute_lookup route c s :
  let old := default ∅ (routesToServices c !! routeKey route) in
  let new := getBackendServiceNamesFromRoute route in
  serviceRefCount (upsertForRoute route c) !! s
  = if decide (s ∈ old ∧ s ∉ new) then decremented (serviceRefCount c !! s)
    else if decide (s ∈ new ∧ s ∉ old) then incremented (serviceRefCount c !! s)
    else serviceRefCount c !! s.
Proof.
  apply upsertForRouteIn_lookup; try apply NoDup_elements;
    intros x; apply elem_of_elements.
Qed.

Lemma deleteForRoute_frame routeName c :
  routesToServices (deleteForRoute routeName c) = delete routeName (routesToServices c)
  ∧ endpointSliceOwners (deleteForRoute routeName c) = endpointSliceOwners c.
Proof. apply deleteForRouteIn_frame. Qed.

Lemma deleteForRoute_lookup routeName c s :
  serviceRefCount (deleteForRoute routeName c) !! s
  = if decide (s ∈ default ∅ (routesToServices c !! routeName))
    then decremented (serviceRefCount c !! s)
    else serviceRefCount c !! s.
Proof.
  apply deleteForRouteIn_lookup; [apply NoDup_elements|].
  intros x; apply elem_of_elements.
Qed.

(** *** Counting the routes that reference a service *)

Lemma referencing_insert (m : gmap NamespacedName (gset NamespacedName)) k new s :
  referencing (<[k:=new]> m) s
  = (referencing (delete k m) s + (if decide (s ∈ new) then 1 else 0))%nat.
Proof.
  unfold referencing. rewrite map_filter_insert; simpl.
  destruct (decide (s ∈ new)).
  - rewrite <-insert_delete_eq, map_size_insert_None by apply lookup_delete_eq.
    rewrite map_filter_delete. lia.
  - lia.
Qed.

Lemma referencing_split (m : gmap NamespacedName (gset NamespacedName)) k s :
  referencing m s
  = (referencing (delete k m) s
     + (if decide (s ∈ default ∅ (m !! k)) then 1 else 0))%nat.
Proof.
  destruct (m !! k) as [old|] eqn:Hk; simpl.
  - rewrite <-(insert_id m k old) at 1 by done. apply referencing_insert.
  - rewrite delete_id by done. rewrite decide_False by set_solver. lia.
Qed.

Lemma referencing_le_size (m : gmap NamespacedName (gset NamespacedName)) s :
  (referencing m s ≤ size m)%nat.
Proof. apply map_subseteq_size, map_filter_subseteq. Qed.

Lemma size_delete_le (m : gmap NamespacedName (gset NamespacedName)) k :
  (size (delete k m) ≤ size m)%nat.
Proof. rewrite map_size_delete. destruct (m !! k); simpl; lia. Qed.

Lemma size_insert_le (m : gmap NamespacedName (gset NamespacedName)) k v :
  (size (<[k:=v]> m) ≤ S (size m))%nat.
Proof. rewrite map_size_insert. destruct (m !! k); simpl; lia. Qed.

Lemma expectedCount_default m s :
  default 0 (expectedCount m s) = Z.of_nat (referencing m s).
Proof. unfold expectedCount. case_decide; simpl; lia. Qed.

Lemma expectedCount_eq m1 m2 s :
  referencing m1 s = referencing m2 s → expectedCount m1 s = expectedCount m2 s.
Proof. unfold expectedCount. by intros ->. Qed.

Lemma decremented_expected m m' s :
  referencing m s = S (referencing m' s) →
  Z.of_nat (referencing m s) ≤ goint.maxInt →
  decremented (expectedCount m s) = expectedCount m' s.
Proof.
  intros Hr Hle. unfold decremented. rewrite expectedCount_default.
  unfold expectedCount. rewrite Hr in *.
  destruct (decide (referencing m' s = 0%nat)) as [Heq|Hne].
  - rewrite decide_True; [done|]. rewrite Heq. lia.
  - rewrite decide_False by lia. f_equal.
    replace (Z.of_nat (S (referencing m' s)) - 1) with (Z.of_nat (referencing m' s)) by lia.
    apply goint_facts.int_nat. lia.
Qed.

Lemma incremented_expected m m' s :
  referencing m' s = S (referencing m s) →
  Z.of_nat (referencing m' s) ≤ goint.maxInt →
  incremented (expectedCount m s) = expectedCount m' s.
Proof.
  intros Hr Hle. unfold incremented. rewrite expectedCount_default.
  unfold expectedCount. rewrite decide_False by lia. f_equal.
  replace (Z.of_nat (referencing m s) + 1) with (Z.of_nat (referencing m' s)) by lia.
  by apply goint_facts.int_nat.
Qed.

(** *** The invariant is kept by both methods *)

Lemma upsertForRoute_consistent route c :
  consistent c →
  Z.of_nat (size (routesToServices c)) < goint.maxInt →
  consistent (upsertForRoute route c).
Proof.
  intros Hc Hsz s.
  rewrite upsertForRoute_lookup, (proj1 (upsertForRoute_frame route c)), !Hc.
  set (k := routeKey route). set (new := getBackendServiceNamesFromRoute route).
  set (m := routesToServices c) in *.
  pose proof (referencing_insert m k new s) as Hins.
  pose proof (referencing_split m k s) as Hsplit.
  pose proof (referencing_le_size (delete k m) s) as Hle.
  pose proof (size_delete_le m k) as Hdel.
  destruct (decide (s ∈ default ∅ (m !! k) ∧ s ∉ new)) as [[H1 H2]|H1].
  - rewrite decide_True in Hsplit by done. rewrite decide_False in Hins by done.
    apply decremented_expected; lia.
  - destruct (decide (s ∈ new ∧ s ∉ default ∅ (m !! k))) as [[H2 H3]|H2].
    + rewrite decide_False in Hsplit by done. rewrite decide_True in Hins by done.
      apply incremented_expected; lia.
    + apply expectedCount_eq. rewrite Hins, Hsplit.
      destruct (decide (s ∈ new)), (decide (s ∈ default ∅ (m !! k))); tauto || lia.
Qed.

Lemma deleteForRoute_consistent routeName c :
  consistent c →
  Z.of_nat (size (routesToServices c)) ≤ goint.maxInt →
  consistent (deleteForRoute routeName c).
Proof.
  intros Hc Hsz s.
  rewrite deleteForRoute_lookup, (proj1 (deleteForRoute_frame routeName c)), !Hc.
  set (m := routesToServices c) in *.
  pose proof (referencing_split m routeName s) as Hsplit.
  pose proof (referencing_le_size m s) as Hle.
  destruct (decide (s ∈ default ∅ (m !! routeName))).
  - apply decremented_expected; lia.
  - apply expectedCount_eq. lia.
Qed.

(** *** Replaying a sequence of calls *)

Section Replay.

Variable GetServiceNameFromEndpointSlice : discoveryV1.EndpointSlice.t → string.

Local Abbreviation Capture := (Capture GetServiceNameFromEndpointSlice).
Local Abbreviation replay := (replay GetServiceNameFromEndpointSlice).

Lemma replay_snoc ops op :
  replay (ops ++ [op]) = call GetServiceNameFromEndpointSlice (replay ops) op.
Proof. unfold relationship.replay. apply foldl_snoc. Qed.

Lemma Capture_routes obj c :
  routesToServices (Capture obj c)
  = match obj with
    | client.HTTPRoute o =>
        <[routeKey o := getBackendServiceNamesFromRoute o]> (routesToServices c)
    | _ => routesToServices c
    end.
Proof.
  destruct obj; simpl; try done.
  - apply upsertForRoute_frame.
  - by case_decide.
Qed.

Lemma Remove_routes resourceType nsname c :
  routesToServices (Remove resourceType nsname c)
  = match resourceType with
    | client.HTTPRoute _ => delete nsname (routesToServices c)
    | _ => routesToServices c
    end.
Proof. destruct resourceType; simpl; try done. apply deleteForRoute_frame. Qed.

Lemma replay_routes ops : routesToServices (replay ops) = lastCaptured ops.
Proof.
  induction ops as [|op ops IH] using rev_ind; [done|].
  rewrite replay_snoc. unfold lastCaptured. rewrite foldl_snoc.
  fold (lastCaptured ops). rewrite <-IH.
  destruct op as [obj|resourceType nsname]; simpl.
  - rewrite Capture_routes. by destruct obj.
  - rewrite Remove_routes. by destruct resourceType.
Qed.

Lemma lastCaptured_size ops : (size (lastCaptured ops) ≤ length ops)%nat.
Proof.
  induction ops as [|op ops IH] using rev_ind; [done|].
  unfold lastCaptured. rewrite foldl_snoc, length_app. fold (lastCaptured ops). simpl.
  pose proof (size_delete_le (lastCaptured ops)) as Hdel.
  pose proof (size_insert_le (lastCaptured ops)) as Hins.
  destruct op as [[]|[]]; try lia.
  - etrans; [apply Hins|lia].
  - etrans; [apply Hdel|lia].
Qed.

Lemma Capture_consistent obj c :
  consistent c →
  Z.of_nat (size (routesToServices c)) < goint.maxInt →
  consistent (Capture obj c).
Proof.
  intros Hc Hsz. destruct obj; simpl; try done.
  - by apply upsertForRoute_consistent.
  - by case_decide.
Qed.

Lemma Remove_consistent resourceType nsname c :
  consistent c →
  Z.of_nat (size (routesToServices c)) ≤ goint.maxInt →
  consistent (Remove resourceType nsname c).
Proof.
  intros Hc Hsz. destruct resourceType; simpl; try done.
  by apply deleteForRoute_consistent.
Qed.

Lemma replay_consistent ops :
  Z.of_nat (length ops) ≤ goint.maxInt → consistent (replay ops).
Proof.
  induction ops as [|op ops IH] using rev_ind; intros Hlen.
  - intros s. unfold expectedCount, referencing; simpl.
    by rewrite map_filter_empty, lookup_empty.
  - rewrite length_app in Hlen; simpl in Hlen. rewrite replay_snoc.
    pose proof (lastCaptured_size ops) as Hsz. rewrite <-replay_routes in Hsz.
    destruct op as [obj|resourceType nsname]; simpl.
    + apply Capture_consistent; [apply IH|]; lia.
    + apply Remove_consistent; [apply IH|]; lia.
Qed.

(** C1.  After any sequence of [Capture] and [Remove] calls on a new
    Capturer (a sequence a machine can hold: of at most [maxInt] calls),
    [serviceRefCount[s]] is, for every service [s], the number of routes
    whose last captured set of backend services contains [s]; the entry of
    [s] is absent exactly when that number is zero, and no entry holds zero
    or a negative number. *)
Theorem serviceRefCount_counts_referencing_routes (ops : list Call) :
  Z.of_nat (length ops) ≤ goint.maxInt →
  let c := replay ops in
  routesToServices c = lastCaptured ops
  ∧ ∀ s,
      refCount c s = Z.of_nat (referencing (lastCaptured ops) s)
      ∧ (serviceRefCount c !! s = None ↔ referencing (lastCaptured ops) s = 0%nat)
      ∧ (∀ v, serviceRefCount c !! s = Some v → 0 < v).
Proof.
  intros Hlen c. split; [apply replay_routes|]. intros s.
  pose proof (replay_consistent ops Hlen s) as Hs. fold c in Hs.
  unfold c in Hs at 2. rewrite replay_routes in Hs.
  unfold refCount. rewrite Hs, expectedCount_default. split; [done|].
  unfold expectedCount. case_decide.
  - split; [done|]. by intros v.
  - split; [by split|]. intros v [= <-]. lia.
Qed.

(** X3.  In a state reached by replaying calls on a new Capturer, a
    Service exists for the Capturer exactly when a route that is tracked
    names it among its backend services. *)
Lemma Exists_service (ops : list Call) (o : v1.Service.t) (s : NamespacedName) :
  Z.of_nat (length ops) ≤ goint.maxInt →
  Exists (client.Service o) s (replay ops) = true
  ↔ (0 < referencing (lastCaptured ops) s)%nat.
Proof.
  intros Hlen. unfold Exists, refCount.
  rewrite (replay_consistent ops Hlen s), expectedCount_default, replay_routes.
  rewrite bool_decide_eq_true. lia.
Qed.

(** *** Capture followed by Remove *)

Lemma Capture_owners_route o c :
  endpointSliceOwners (Capture (client.HTTPRoute o) c) = endpointSliceOwners c.
Proof. apply upsertForRoute_frame. Qed.

Lemma consistent_eq c1 c2 :
  consistent c1 → consistent c2 →
  routesToServices c1 = routesToServices c2 →
  endpointSliceOwners c1 = endpointSliceOwners c2 →
  c1 = c2.
Proof.
  intros H1 H2 Hr Ho. apply Capturer_eq; [done| |done].
  apply map_eq; intros s. by rewrite H1, H2, Hr.
Qed.

Lemma deleteForRoute_untracked routeName c :
  routesToServices c !! routeName = None → deleteForRoute routeName c = c.
Proof.
  intros Hk. unfold deleteForRoute, deleteForRouteIn. rewrite Hk; simpl.
  rewrite elements_empty; simpl. rewrite delete_id by done. by destruct c.
Qed.

(** C2, as amended.  In a state reached by replaying calls on a new
    Capturer, [Capture] of a route followed by [Remove] of its key leaves
    the Capturer as [Remove] of that key alone would; in particular, when
    the route was not tracked before the [Capture], it leaves the Capturer
    exactly as it was. *)
Theorem capture_then_remove_route (ops : list Call) (x y : v1beta1.HTTPRoute.t) :
  Z.of_nat (length ops) + 2 ≤ goint.maxInt →
  let c := replay ops in
  let c' := Remove (client.HTTPRoute y) (routeKey x)
              (Capture (client.HTTPRoute x) c) in
  c' = Remove (client.HTTPRoute y) (routeKey x) c
  ∧ (routesToServices c !! routeKey x = None → c' = c).
Proof.
  intros Hlen c c'.
  assert (c' = Remove (client.HTTPRoute y) (routeKey x) c)
    as Heq.
  { pose proof (replay_consistent
                  (ops ++ [CallCapture (client.HTTPRoute x)]
                       ++ [CallRemove (client.HTTPRoute y) (routeKey x)])) as H1.
    pose proof (replay_consistent
                  (ops ++ [CallRemove (client.HTTPRoute y) (routeKey x)])) as H2.
    rewrite app_assoc, !replay_snoc in H1. rewrite replay_snoc in H2.
    rewrite !length_app in H1. rewrite length_app in H2. simpl in H1, H2.
    apply consistent_eq.
    - apply H1. lia.
    - apply H2. lia.
    - unfold c'. rewrite !Remove_routes, Capture_routes. apply delete_insert_eq.
    - unfold c', Remove.
      rewrite (proj2 (deleteForRoute_frame _ _)), (proj2 (deleteForRoute_frame _ _)).
      apply Capture_owners_route. }
  split; [done|]. intros Hk. rewrite Heq. simpl. by apply deleteForRoute_untracked.
Qed.

End Replay.

(** The extraction of backend service names on the route of the test of
    the repository. *)
Example getBackendServiceNamesFromRoute_test :
  getBackendServiceNamesFromRoute samples.testRoute
  = {[ {| Namespace := "test"; Name := "svc1" |};
       {| Namespace := "test"; Name := "nil-namespace" |};
       {| Namespace := "not-test"; Name := "diff-namespace" |};
       {| Namespace := "test"; Name := "svc2" |} ]}.
Proof.
  unfold getBackendServiceNamesFromRoute; simpl.
  unfold addBackendServiceName; simpl. set_solver.
Qed.

Lemma serviceRefCount_counts_referencing_routes_witness :
  let ops := [ CallCapture (client.HTTPRoute samples.hr1);
               CallCapture (client.HTTPRoute samples.hr2);
               CallRemove (client.HTTPRoute samples.hr1) (routeKey samples.hr1) ] in
  let c := replay samples.serviceNameLabel ops in
  Z.of_nat (length ops) ≤ goint.maxInt
  ∧ routesToServices c = lastCaptured ops
  ∧ ∀ s,
      refCount c s = Z.of_nat (referencing (lastCaptured ops) s)
      ∧ (serviceRefCount c !! s = None ↔ referencing (lastCaptured ops) s = 0%nat)
      ∧ (∀ v, serviceRefCount c !! s = Some v → 0 < v).
Proof.
  intros ops.
  assert (Z.of_nat (length ops) ≤ goint.maxInt) as Hlen
    by (unfold goint.maxInt; simpl; lia).
  split; [exact Hlen|].
  exact (serviceRefCount_counts_referencing_routes samples.serviceNameLabel ops Hlen).
Defined.

Lemma capture_then_remove_route_witness :
  let ops := [ CallCapture (client.HTTPRoute samples.hr1) ] in
  let c := replay samples.serviceNameLabel ops in
  let c' := Remove (client.HTTPRoute samples.hr2)
              (routeKey samples.hr2)
              (Capture samples.serviceNameLabel (client.HTTPRoute samples.hr2) c) in
  Z.of_nat (length ops) + 2 ≤ goint.maxInt
  ∧ c' = Remove (client.HTTPRoute samples.hr2) (routeKey samples.hr2) c
  ∧ (routesToServices c !! routeKey samples.hr2 = None → c' = c).
Proof.
  intros ops.
  assert (Z.of_nat (length ops) + 2 ≤ goint.maxInt) as Hlen
    by (unfold goint.maxInt; simpl; lia).
  split; [exact Hlen|].
  exact (capture_then_remove_route samples.serviceNameLabel ops samples.hr2 samples.hr2
           Hlen).
Defined.

(** C2, as stated, fails on a route that is already tracked: capturing
    [hr-1] again and removing it does not give back the Capturer that
    tracked [hr-1].  It also fails on a Capturer that no sequence of calls
    produces, such as one that stores a count of zero: the count is not
    stored again. *)
Lemma capture_then_remove_tracked_route_counterexample :
  let c := Capture samples.serviceNameLabel (client.HTTPRoute samples.hr1) NewCapturer in
  let z := {| routesToServices := ∅;
              serviceRefCount := {[ {| Namespace := "test"; Name := "foo" |} := 0 ]};
              endpointSliceOwners := ∅ |} in
  Remove (client.HTTPRoute samples.hr1) (routeKey samples.hr1)
    (Capture samples.serviceNameLabel (client.HTTPRoute samples.hr1) c)
  ≠ c
  ∧ Remove (client.HTTPRoute samples.hr1) (routeKey samples.hr1)
      (Capture samples.serviceNameLabel (client.HTTPRoute samples.hr1) z)
    ≠ z.
Proof.
  intros c z. split; intros Heq.
  - apply (f_equal (λ c, routesToServices c !! routeKey samples.hr1)) in Heq.
    unfold c in Heq. rewrite Remove_routes, !Capture_routes in Heq.
    by rewrite lookup_delete_eq, lookup_insert_eq in Heq.
  - apply (f_equal (λ c, serviceRefCount c
                         !! {| Namespace := "test"; Name := "foo" |})) in Heq.
    unfold Remove, Capture in Heq. rewrite deleteForRoute_lookup in Heq.
    rewrite (proj1 (upsertForRoute_frame _ _)), lookup_insert_eq in Heq.
    assert ({| Namespace := "test"; Name := "foo" |}
            ∈ getBackendServiceNamesFromRoute samples.hr1) as Hfoo
      by (unfold getBackendServiceNamesFromRoute, addBackendServiceName; simpl; set_solver).
    rewrite decide_True in Heq by done.
    rewrite upsertForRoute_lookup in Heq.
    change (routesToServices z) with (∅ : gmap NamespacedName (gset NamespacedName)) in Heq.
    rewrite lookup_empty in Heq.
    rewrite decide_False in Heq by (intros [[]%not_elem_of_empty _]).
    rewrite decide_True in Heq by (split; [done|apply not_elem_of_empty]).
    unfold z, incremented, decremented in Heq; simpl in Heq.
    by rewrite lookup_singleton_eq in Heq.
Qed.

End relationship_facts.

(** ** The endpoint resolver *)

Module resolver_facts.
Import resolver.
Local Open Scope Z_scope.

(** *** The tests of the slice filter *)

Lemma endpointReady_true endpoint :
  endpointReady endpoint = true
  ↔ discoveryV1.Ready (discoveryV1.Conditions endpoint) = Some true.
Proof.
  unfold endpointReady.
  destruct (discoveryV1.Ready (discoveryV1.Conditions endpoint)) as [[]|]; naive_solver.
Qed.

Lemma targetPortExists_true ports targetPort :
  targetPortExists ports targetPort = true
  ↔ ∃ port, port ∈ ports ∧ discoveryV1.Port port = Some targetPort.
Proof.
  induction ports as [|port ports IH]; simpl.
  - split; [done|]. intros (port & []%elem_of_nil & _).
  - destruct (discoveryV1.Port port) as [p|] eqn:Hp.
    + destruct (decide (p = targetPort)) as [->|Hne].
      * split; [|done]. intros _. exists port. split; [left|done].
      * rewrite IH. split.
        -- intros (port' & Hin & Hport). exists port'. split; [by right|done].
        -- intros (port' & [->|Hin]%elem_of_cons & Hport); [congruence|].
           by exists port'.
    + rewrite IH. split.
      * intros (port' & Hin & Hport). exists port'. split; [by right|done].
      * intros (port' & [->|Hin]%elem_of_cons & Hport); [congruence|].
        by exists port'.
Qed.

Lemma ignoreEndpointSlice_false es targetPort :
  ignoreEndpointSlice es targetPort = false
  ↔ discoveryV1.EndpointSlice.AddressType es = discoveryV1.AddressTypeIPv4
    ∧ ∃ port, port ∈ discoveryV1.EndpointSlice.Ports es
              ∧ discoveryV1.Port port = Some targetPort.
Proof.
  unfold ignoreEndpointSlice.
  rewrite orb_false_iff, negb_false_iff, targetPortExists_true, bool_decide_eq_false.
  split; intros [H1 H2]; (split; [|done]).
  - by destruct (decide (discoveryV1.EndpointSlice.AddressType es
                         = discoveryV1.AddressTypeIPv4)).
  - by intros ?.
Qed.

(** *** What the specification's enumeration holds *)

Lemma elem_of_emitted targetPort items ep :
  ep ∈ emitted targetPort items
  ↔ ∃ es endpoint address,
      es ∈ items ∧ ignoreEndpointSlice es targetPort = false
      ∧ endpoint ∈ discoveryV1.EndpointSlice.Endpoints es
      ∧ endpointReady endpoint = true
      ∧ address ∈ discoveryV1.Addresses endpoint
      ∧ ep = {| Address := address; Port := targetPort |}.
Proof.
  unfold emitted. rewrite list_elem_of_bind. split.
  - intros (es & (endpoint & (address & -> & Ha)%list_elem_of_fmap
                  & [Hr He]%list_elem_of_filter)%list_elem_of_bind
               & [Hi Hes]%list_elem_of_filter).
    by exists es, endpoint, address.
  - intros (es & endpoint & address & Hes & Hi & He & Hr & Ha & ->).
    exists es. split; [|by apply list_elem_of_filter].
    apply list_elem_of_bind. exists endpoint. split; [|by apply list_elem_of_filter].
    apply list_elem_of_fmap. by exists address.
Qed.

Lemma emitted_cons targetPort es items :
  emitted targetPort (es :: items)
  = (if ignoreEndpointSlice es targetPort then []
     else e ← filter (λ e, endpointReady e = true) (discoveryV1.EndpointSlice.Endpoints es);
          (λ address, {| Address := address; Port := targetPort |})
            <$> discoveryV1.Addresses e)
    ++ emitted targetPort items.
Proof.
  unfold emitted. rewrite filter_cons.
  by destruct (ignoreEndpointSlice es targetPort).
Qed.

(** *** The capacity pass *)

Lemma addReadyAddresses_exact endpoints capacity :
  0 ≤ capacity →
  capacity + Z.of_nat (length (e ← filter (λ e, endpointReady e = true) endpoints;
                               discoveryV1.Addresses e)) ≤ goint.maxInt →
  addReadyAddresses capacity endpoints
  = capacity + Z.of_nat (length (e ← filter (λ e, endpointReady e = true) endpoints;
                                 discoveryV1.Addresses e)).
Proof.
  unfold addReadyAddresses. revert capacity.
  induction endpoints as [|e endpoints IH]; intros capacity Hc Hn.
  - simpl. lia.
  - rewrite filter_cons in Hn |- *. cbn [foldl].
    destruct (endpointReady e) eqn:He.
    + rewrite decide_True in Hn |- * by done.
      rewrite bind_cons, length_app, Nat2Z.inj_add in Hn |- *.
      rewrite goint_facts.int_small by (unfold goint.maxInt in Hn; lia).
      rewrite IH; lia.
    + rewrite decide_False in Hn |- * by done. by apply IH.
Qed.

Lemma length_emitted_cons targetPort es items :
  length (emitted targetPort (es :: items))
  = ((if ignoreEndpointSlice es targetPort then 0
      else length (e ← filter (λ e, endpointReady e = true)
                                (discoveryV1.EndpointSlice.Endpoints es);
                   discoveryV1.Addresses e))
     + length (emitted targetPort items))%nat.
Proof.
  rewrite emitted_cons, length_app. f_equal.
  destruct (ignoreEndpointSlice es targetPort); [done|].
  induction (filter _ _) as [|e l IH]; [done|].
  by rewrite !bind_cons, !length_app, length_fmap, IH.
Qed.

Lemma capacity_from items targetPort capacity :
  0 ≤ capacity →
  capacity + Z.of_nat (length (emitted targetPort items)) ≤ goint.maxInt →
  foldl (λ capacity es,
           if ignoreEndpointSlice es targetPort then capacity
           else addReadyAddresses capacity (discoveryV1.EndpointSlice.Endpoints es))
        capacity items
  = capacity + Z.of_nat (length (emitted targetPort items)).
Proof.
  revert capacity.
  induction items as [|es items IH]; intros capacity Hc Hn.
  - simpl. lia.
  - rewrite length_emitted_cons, Nat2Z.inj_add in Hn |- *. cbn [foldl].
    destruct (ignoreEndpointSlice es targetPort).
    + rewrite IH; lia.
    + rewrite addReadyAddresses_exact by lia. rewrite IH; lia.
Qed.

Lemma calculateEndpointSliceCapacity_exact items targetPort :
  Z.of_nat (length (emitted targetPort items)) ≤ goint.maxInt →
  calculateEndpointSliceCapacity items targetPort
  = Z.of_nat (length (emitted targetPort items)).
Proof.
  intros Hn. unfold calculateEndpointSliceCapacity.
  rewrite capacity_from; lia.
Qed.

(** *** The enumeration pass *)

Section Resolver.

Variable Atoi : string → Z.
Variable growslice : Z → Z.

Local Abbreviation append := (append growslice).
Local Abbreviation appendAddresses := (appendAddresses growslice).
Local Abbreviation appendReady := (appendReady growslice).
Local Abbreviation enumerate := (enumerate growslice).
Local Abbreviation getTargetPort := (getTargetPort Atoi).
Local Abbreviation findTargetPort := (findTargetPort Atoi).
Local Abbreviation resolveEndpoints := (resolveEndpoints Atoi growslice).
Local Abbreviation Resolve := (Resolve Atoi growslice).

Lemma append_extended s ep : extended s [ep] (append s ep).
Proof.
  unfold extended, resolver.append. split.
  - by case_decide.
  - simpl. intros Hfit. rewrite decide_True by lia. done.
Qed.

Lemma extended_nil s : extended s [] s.
Proof. split; [by rewrite app_nil_r|done]. Qed.

Lemma extended_app s1 s2 s3 l1 l2 :
  extended s1 l1 s2 → extended s2 l2 s3 → extended s1 (l1 ++ l2) s3.
Proof.
  intros [He1 Hc1] [He2 Hc2]. split.
  - by rewrite He2, He1, app_assoc.
  - rewrite length_app, Nat2Z.inj_add. intros Hfit.
    destruct Hc1 as [Hcap1 Hre1]; [lia|].
    destruct Hc2 as [Hcap2 Hre2].
    { rewrite He1, length_app, Nat2Z.inj_add. lia. }
    split; congruence.
Qed.

Lemma appendAddresses_extended targetPort addresses s :
  extended s ((λ address, {| Address := address; Port := targetPort |}) <$> addresses)
           (appendAddresses targetPort s addresses).
Proof.
  unfold resolver.appendAddresses. revert s.
  induction addresses as [|address addresses IH]; intros s; simpl.
  - apply extended_nil.
  - eapply (extended_app _ _ _ [_]); [apply append_extended|apply IH].
Qed.

Lemma appendReady_extended targetPort eps s :
  extended s (e ← filter (λ e, endpointReady e = true) eps;
              (λ address, {| Address := address; Port := targetPort |})
                <$> discoveryV1.Addresses e)
           (appendReady targetPort s eps).
Proof.
  unfold resolver.appendReady. revert s.
  induction eps as [|e eps IH]; intros s; cbn [foldl].
  - apply extended_nil.
  - rewrite filter_cons. destruct (endpointReady e) eqn:He; simpl.
    + eapply extended_app; [apply appendAddresses_extended|apply IH].
    + apply IH.
Qed.

Lemma enumerate_extended targetPort items s :
  extended s (emitted targetPort items) (enumerate targetPort s items).
Proof.
  unfold resolver.enumerate. revert s.
  induction items as [|es items IH]; intros s; cbn [foldl].
  - apply extended_nil.
  - rewrite emitted_cons. destruct (ignoreEndpointSlice es targetPort).
    + apply IH.
    + eapply extended_app; [apply appendReady_extended|apply IH].
Qed.

(** The loop of [resolveEndpoints] produces what the specification
    describes, whatever the capacity of the slice it starts from. *)
Lemma enumerate_elems targetPort items capacity :
  elems (enumerate targetPort (make capacity) items) = emitted targetPort items.
Proof. apply (enumerate_extended targetPort items (make capacity)). Qed.

(** Started from a slice of the capacity the first pass computes, it
    fills that slice and never moves it. *)
Lemma enumerate_presized targetPort items :
  enumerate targetPort (make (Z.of_nat (length (emitted targetPort items)))) items
  = {| elems := emitted targetPort items;
       cap := Z.of_nat (length (emitted targetPort items));
       reallocs := 0 |}.
Proof.
  destruct (enumerate_extended targetPort items
              (make (Z.of_nat (length (emitted targetPort items))))) as [He Hc].
  destruct Hc as [Hcap Hre]; [simpl; lia|].
  destruct (enumerate _ _ _); simpl in *. by subst.
Qed.

(** *** The target port *)

Lemma findTargetPort_None ports svcPort :
  (∀ port, port ∈ ports →
     ¬ (v1.Port port = svcPort ∧ intstr.IntValue Atoi (v1.TargetPort port) ≠ 0)) →
  findTargetPort ports svcPort = None.
Proof.
  induction ports as [|port ports IH]; intros Hno; simpl; [done|].
  destruct (decide (v1.Port port = svcPort)) as [Hp|Hp].
  - destruct (decide (intstr.IntValue Atoi (v1.TargetPort port) = 0)) as [|Hv]; [done|].
    destruct (Hno port); [left|done].
  - apply IH. intros port' Hin. apply Hno. by right.
Qed.

(** *** What [Resolve] returns *)

(** C3.  Every endpoint that [Resolve] returns for a Service has the
    resolved target port as its [Port], and comes from an address of a
    ready endpoint of a slice of address type IPv4 whose ports contain the
    target port; the endpoints returned are, in order, one pair
    [(address, targetPort)] per listed address of each such endpoint of
    each such slice. *)
Theorem Resolve_emits_ready_IPv4 (e : ServiceResolverImpl) (svc : v1.Service.t)
    (svcPort : Z) (endpoints : slice) :
  Resolve e (Some svc) svcPort = Ok endpoints →
  ∃ items targetPort,
    List (client e) (metav1.Name (v1.Service.ObjectMeta svc))
                    (metav1.Namespace (v1.Service.ObjectMeta svc)) = Some items
    ∧ getTargetPort svc svcPort = Ok targetPort
    ∧ elems endpoints = emitted targetPort items
    ∧ ∀ ep, ep ∈ elems endpoints →
        Port ep = targetPort
        ∧ ∃ es endpoint,
            es ∈ items
            ∧ discoveryV1.EndpointSlice.AddressType es = discoveryV1.AddressTypeIPv4
            ∧ (∃ port, port ∈ discoveryV1.EndpointSlice.Ports es
                       ∧ discoveryV1.Port port = Some targetPort)
            ∧ endpoint ∈ discoveryV1.EndpointSlice.Endpoints es
            ∧ discoveryV1.Ready (discoveryV1.Conditions endpoint) = Some true
            ∧ Address ep ∈ discoveryV1.Addresses endpoint.
Proof.
  unfold resolver.Resolve, resolver.resolveEndpoints.
  destruct (List _ _ _) as [items|]; [|done].
  destruct (decide (length items = 0%nat)); [done|].
  destruct (getTargetPort svc svcPort) as [targetPort| |] eqn:Htp; [|done..].
  destruct (decide (_ = 0)); [done|]. destruct (decide (_ < 0)); [done|].
  intros [= <-]. exists items, targetPort.
  rewrite enumerate_elems. do 3 (split; [done|]).
  intros ep (es & endpoint & address & Hes & Hi & He & Hr & Ha & ->)%elem_of_emitted.
  split; [done|]. exists es, endpoint.
  apply ignoreEndpointSlice_false in Hi as [Hv4 Hport].
  apply endpointReady_true in Hr. done.
Qed.

(** C4, as amended.  For a Service none of whose ports has the service
    port and a non-zero target port, [Resolve] fails: with the error "no
    matching target port" when the query for its EndpointSlices returned at
    least one slice, and with the error "no endpoints found" when the query
    failed or returned none. *)
Theorem Resolve_no_matching_target_port (e : ServiceResolverImpl) (svc : v1.Service.t)
    (svcPort : Z) :
  (∀ port, port ∈ v1.Ports (v1.Service.Spec svc) →
     ¬ (v1.Port port = svcPort ∧ intstr.IntValue Atoi (v1.TargetPort port) ≠ 0)) →
  Resolve e (Some svc) svcPort
  = match List (client e) (metav1.Name (v1.Service.ObjectMeta svc))
                          (metav1.Namespace (v1.Service.ObjectMeta svc)) with
    | Some (_ :: _) =>
        Err (ErrNoMatchingTargetPort (metav1.Namespace (v1.Service.ObjectMeta svc))
                                     (metav1.Name (v1.Service.ObjectMeta svc)) svcPort)
    | _ => Err (ErrNoEndpointsFound (client.ObjectKeyFromObject (client.Service svc)))
    end.
Proof.
  intros Hno. unfold resolver.Resolve.
  destruct (List _ _ _) as [[|es items]|]; [done| |done]. simpl.
  unfold resolver.resolveEndpoints, resolver.getTargetPort.
  by rewrite findTargetPort_None.
Qed.

(** C8, as amended.  For slices whose enumeration a machine can hold (of
    at most [maxInt] endpoints), [calculateEndpointSliceCapacity] is the
    length of the list that the loop of [resolveEndpoints] produces; hence
    [resolveEndpoints], once it has a target port, fails with "no valid
    endpoints" exactly when that list is empty, and [Resolve] does so
    exactly when the list of slices is not empty and that list is; on an
    empty list of slices, or a failed query, [Resolve] fails with "no
    endpoints found" instead; and when the enumeration is not empty both
    return it in the slice made with that capacity, which [append] never
    had to move. *)
Theorem capacity_is_length_of_enumeration (items : list discoveryV1.EndpointSlice.t)
    (targetPort : Z) :
  let produced := elems (enumerate targetPort (make 0) items) in
  Z.of_nat (length produced) ≤ goint.maxInt →
  calculateEndpointSliceCapacity items targetPort = Z.of_nat (length produced)
  ∧ ∀ svc svcPort,
      getTargetPort svc svcPort = Ok targetPort →
      let noValidEndpoints :=
        Err (ErrNoValidEndpoints (client.ObjectKeyFromObject (client.Service svc)) svcPort) in
      let filled :=
        Ok {| elems := produced; cap := Z.of_nat (length produced); reallocs := 0 |} in
      (resolveEndpoints svc svcPort items = noValidEndpoints ↔ produced = [])
      ∧ (produced ≠ [] → resolveEndpoints svc svcPort items = filled)
      ∧ ∀ e,
          let noEndpointsFound :=
            Err (ErrNoEndpointsFound (client.ObjectKeyFromObject (client.Service svc))) in
          (List (client e) (metav1.Name (v1.Service.ObjectMeta svc))
                           (metav1.Namespace (v1.Service.ObjectMeta svc)) = None →
           Resolve e (Some svc) svcPort = noEndpointsFound)
          ∧ (List (client e) (metav1.Name (v1.Service.ObjectMeta svc))
                             (metav1.Namespace (v1.Service.ObjectMeta svc)) = Some items →
             (Resolve e (Some svc) svcPort = noValidEndpoints
              ↔ items ≠ [] ∧ produced = [])
             ∧ (items = [] → Resolve e (Some svc) svcPort = noEndpointsFound)
             ∧ (produced ≠ [] → Resolve e (Some svc) svcPort = filled)).
Proof.
  intros produced. unfold produced. rewrite enumerate_elems. intros Hlen.
  pose proof (calculateEndpointSliceCapacity_exact items targetPort Hlen) as Hcap.
  split; [done|]. intros svc svcPort Htp.
  set (noValidEndpoints :=
         Err (ErrNoValidEndpoints (client.ObjectKeyFromObject (client.Service svc))
                                  svcPort) : result slice).
  set (filled := Ok {| elems := emitted targetPort items;
                       cap := Z.of_nat (length (emitted targetPort items));
                       reallocs := 0 |}).
  cut ((resolveEndpoints svc svcPort items = noValidEndpoints
        ↔ emitted targetPort items = [])
       ∧ (emitted targetPort items ≠ [] → resolveEndpoints svc svcPort items = filled)).
  { intros Hre. split; [apply Hre|]. split; [apply Hre|].
    intros e. unfold resolver.Resolve. split.
    - by intros ->.
    - intros ->. destruct items as [|es items].
      + rewrite decide_True by done. split; [|by split].
        split; [done|]. by intros [? _].
      + rewrite decide_False by done. split; [|split; [done|apply Hre]].
        destruct Hre as [Hiff _]. rewrite Hiff. split; [done|by intros [_ ?]]. }
  unfold noValidEndpoints, filled, resolver.resolveEndpoints. rewrite Htp, Hcap.
  destruct (decide (Z.of_nat (length (emitted targetPort items)) = 0)) as [H0|H0].
  - assert (emitted targetPort items = []) as Hnil
      by (destruct (emitted targetPort items); [done|simpl in H0; lia]).
    by rewrite Hnil.
  - rewrite decide_False by lia. split.
    + split; [done|]. intros Hnil. by rewrite Hnil in H0.
    + intros _. f_equal. apply enumerate_presized.
Qed.

End Resolver.

(** *** The tests of the repository, and the scenarios of the specification *)

Example calculateEndpointSliceCapacity_test :
  calculateEndpointSliceCapacity [samples.validEndpointSlice; samples.validEndpointSlice] 80
  = 18
  ∧ calculateEndpointSliceCapacity
      [samples.validEndpointSlice; samples.invalidAddressTypeEndpointSlice;
       samples.validEndpointSlice; samples.invalidPortEndpointSlice] 80 = 18
  ∧ calculateEndpointSliceCapacity [samples.mixedValidityEndpointSlice] 80 = 6
  ∧ calculateEndpointSliceCapacity
      [samples.invalidAddressTypeEndpointSlice; samples.invalidPortEndpointSlice] 80 = 0
  ∧ calculateEndpointSliceCapacity [samples.notReadyEndpointSlice] 80 = 0.
Proof. by vm_compute. Qed.

Example ignoreEndpointSlice_test :
  ignoreEndpointSlice (samples.sliceOf discoveryV1.AddressTypeIPv6 [] []) 8080 = true
  ∧ ignoreEndpointSlice (samples.sliceOf discoveryV1.AddressTypeFQDN [] []) 8080 = true
  ∧ ignoreEndpointSlice (samples.sliceOf discoveryV1.AddressTypeIPv4 [] [4000]) 8080 = true
  ∧ ignoreEndpointSlice (samples.sliceOf discoveryV1.AddressTypeIPv4 [] [4000]) 4000 = false.
Proof. by vm_compute. Qed.

Example endpointReady_test :
  endpointReady samples.readyEndpoint1 = true
  ∧ endpointReady {| discoveryV1.Addresses := [];
                     discoveryV1.Conditions := {| discoveryV1.Ready := None |} |} = false
  ∧ endpointReady samples.notReadyEndpoint = false.
Proof. done. Qed.

Example targetPortExists_test :
  targetPortExists [ {| discoveryV1.Port := None |} ] 8080 = false
  ∧ targetPortExists [ {| discoveryV1.Port := Some 80 |}; {| discoveryV1.Port := Some 81 |};
                       {| discoveryV1.Port := Some 82 |} ] 8080 = false
  ∧ targetPortExists [ {| discoveryV1.Port := Some 80 |}; {| discoveryV1.Port := Some 81 |};
                       {| discoveryV1.Port := Some 8080 |} ] 8080 = true.
Proof. done. Qed.

Example getTargetPort_test :
  getTargetPort samples.atoi samples.svcIntTargetPort 80 = Ok 8080
  ∧ getTargetPort samples.atoi samples.svcStringTargetPort 80 = Ok 8080
  ∧ getTargetPort samples.atoi samples.svcNoTargetPort 80
    = Err (ErrNoMatchingTargetPort "test" "svc" 80)
  ∧ getTargetPort samples.atoi samples.svcIntTargetPort 90
    = Err (ErrNoMatchingTargetPort "test" "svc" 90).
Proof. by vm_compute. Qed.

Example Resolve_readiness_filter :
  Resolve samples.atoi samples.grow
          (samples.resolverOver [samples.mixedValidityEndpointSlice])
          (Some samples.svcTargetPort80) 80
  = Ok samples.sixEndpoints.
Proof. by vm_compute. Qed.

Lemma Resolve_emits_ready_IPv4_witness :
  Resolve samples.atoi samples.grow
          (samples.resolverOver [samples.mixedValidityEndpointSlice])
          (Some samples.svcTargetPort80) 80
  = Ok samples.sixEndpoints
  ∧ ∃ items targetPort,
      List (client (samples.resolverOver [samples.mixedValidityEndpointSlice]))
           "svc" "test" = Some items
      ∧ getTargetPort samples.atoi samples.svcTargetPort80 80 = Ok targetPort
      ∧ elems samples.sixEndpoints = emitted targetPort items
      ∧ ∀ ep, ep ∈ elems samples.sixEndpoints →
          Port ep = targetPort
          ∧ ∃ es endpoint,
              es ∈ items
              ∧ discoveryV1.EndpointSlice.AddressType es = discoveryV1.AddressTypeIPv4
              ∧ (∃ port, port ∈ discoveryV1.EndpointSlice.Ports es
                         ∧ discoveryV1.Port port = Some targetPort)
              ∧ endpoint ∈ discoveryV1.EndpointSlice.Endpoints es
              ∧ discoveryV1.Ready (discoveryV1.Conditions endpoint) = Some true
              ∧ Address ep ∈ discoveryV1.Addresses endpoint.
Proof.
  split; [vm_compute; reflexivity|].
  apply (Resolve_emits_ready_IPv4 samples.atoi samples.grow
           (samples.resolverOver [samples.mixedValidityEndpointSlice])
           samples.svcTargetPort80 80 samples.sixEndpoints).
  vm_compute. reflexivity.
Defined.

Lemma svcNoTargetPort_has_no_target :
  ∀ port, port ∈ v1.Ports (v1.Service.Spec samples.svcNoTargetPort) →
    ¬ (v1.Port port = 80 ∧ intstr.IntValue samples.atoi (v1.TargetPort port) ≠ 0).
Proof.
  intros port [->|[]%elem_of_nil]%elem_of_cons. simpl. by intros [_ ?].
Defined.

Lemma Resolve_no_matching_target_port_witness :
  (∀ port, port ∈ v1.Ports (v1.Service.Spec samples.svcNoTargetPort) →
     ¬ (v1.Port port = 80 ∧ intstr.IntValue samples.atoi (v1.TargetPort port) ≠ 0))
  ∧ Resolve samples.atoi samples.grow
            (samples.resolverOver [samples.validEndpointSlice])
            (Some samples.svcNoTargetPort) 80
    = Err (ErrNoMatchingTargetPort "test" "svc" 80).
Proof.
  split; [apply svcNoTargetPort_has_no_target|].
  apply (Resolve_no_matching_target_port samples.atoi samples.grow
           (samples.resolverOver [samples.validEndpointSlice])
           samples.svcNoTargetPort 80).
  apply svcNoTargetPort_has_no_target.
Defined.

(** C4, as stated, fails when the Service has no EndpointSlices: the
    query comes first, and its empty answer is the error reported. *)
Lemma Resolve_without_slices_counterexample :
  (∀ port, port ∈ v1.Ports (v1.Service.Spec samples.svcNoTargetPort) →
     ¬ (v1.Port port = 80 ∧ intstr.IntValue samples.atoi (v1.TargetPort port) ≠ 0))
  ∧ Resolve samples.atoi samples.grow (samples.resolverOver [])
            (Some samples.svcNoTargetPort) 80
    = Err (ErrNoEndpointsFound {| types.Namespace := "test"; types.Name := "svc" |})
  ∧ Resolve samples.atoi samples.grow (samples.resolverOver [])
            (Some samples.svcNoTargetPort) 80
    ≠ Err (ErrNoMatchingTargetPort "test" "svc" 80).
Proof. split; [apply svcNoTargetPort_has_no_target|]. split; by vm_compute. Qed.

Lemma capacity_is_length_of_enumeration_witness :
  let items := [samples.mixedValidityEndpointSlice] in
  let produced := elems (enumerate samples.grow 80 (make 0) items) in
  Z.of_nat (length produced) ≤ goint.maxInt
  ∧ calculateEndpointSliceCapacity items 80 = Z.of_nat (length produced)
  ∧ ∀ svc svcPort,
      getTargetPort samples.atoi svc svcPort = Ok 80 →
      let noValidEndpoints :=
        Err (ErrNoValidEndpoints (client.ObjectKeyFromObject (client.Service svc)) svcPort) in
      let filled :=
        Ok {| elems := produced; cap := Z.of_nat (length produced); reallocs := 0 |} in
      (resolveEndpoints samples.atoi samples.grow svc svcPort items = noValidEndpoints
       ↔ produced = [])
      ∧ (produced ≠ [] →
         resolveEndpoints samples.atoi samples.grow svc svcPort items = filled)
      ∧ ∀ e,
          let noEndpointsFound :=
            Err (ErrNoEndpointsFound (client.ObjectKeyFromObject (client.Service svc))) in
          (List (client e) (metav1.Name (v1.Service.ObjectMeta svc))
                           (metav1.Namespace (v1.Service.ObjectMeta svc)) = None →
           Resolve samples.atoi samples.grow e (Some svc) svcPort = noEndpointsFound)
          ∧ (List (client e) (metav1.Name (v1.Service.ObjectMeta svc))
                             (metav1.Namespace (v1.Service.ObjectMeta svc)) = Some items →
             (Resolve samples.atoi samples.grow e (Some svc) svcPort = noValidEndpoints
              ↔ items ≠ [] ∧ produced = [])
             ∧ (items = [] →
                Resolve samples.atoi samples.grow e (Some svc) svcPort = noEndpointsFound)
             ∧ (produced ≠ [] →
                Resolve samples.atoi samples.grow e (Some svc) svcPort = filled)).
Proof.
  intros items produced.
  assert (Z.of_nat (length produced) ≤ goint.maxInt) as Hlen by (by vm_compute).
  split; [exact Hlen|].
  exact (capacity_is_length_of_enumeration samples.atoi samples.grow items 80 Hlen).
Defined.

(** C8, as stated, fails on the empty list of slices: the enumeration is
    empty, and so is the capacity, but [Resolve] never gets to them; it
    fails with "no endpoints found", not with "no valid endpoints". *)
Lemma Resolve_empty_enumeration_counterexample :
  let items : list discoveryV1.EndpointSlice.t := [] in
  let key := client.ObjectKeyFromObject (client.Service samples.svcTargetPort80) in
  List (client (samples.resolverOver items)) "svc" "test" = Some items
  ∧ getTargetPort samples.atoi samples.svcTargetPort80 80 = Ok 80
  ∧ calculateEndpointSliceCapacity items 80 = 0
  ∧ elems (enumerate samples.grow 80 (make 0) items) = []
  ∧ Resolve samples.atoi samples.grow (samples.resolverOver items)
            (Some samples.svcTargetPort80) 80
    = Err (ErrNoEndpointsFound key)
  ∧ Resolve samples.atoi samples.grow (samples.resolverOver items)
            (Some samples.svcTargetPort80) 80
    ≠ Err (ErrNoValidEndpoints key 80).
Proof. intros items key. repeat split; by vm_compute. Qed.

End resolver_facts.

(** ** Upstreams *)

Module state_facts.
Import types state.
Local Open Scope Z_scope.

(** *** Upstream names *)

Lemma endsInDigit_cons a s : endsInDigit s = true → endsInDigit (String a s) = true.
Proof. by destruct s. Qed.

Lemma endsInDigit_app s1 s2 : endsInDigit s2 = true → endsInDigit (s1 +:+ s2) = true.
Proof.
  intros H2. induction s1 as [|a s1 IH]; [done|].
  by apply (endsInDigit_cons a (s1 +:+ s2)).
Qed.

Lemma string_of_uint_endsInDigit d :
  d ≠ Decimal.Nil → endsInDigit (NilEmpty.string_of_uint d) = true.
Proof.
  induction d as [|d IH|d IH|d IH|d IH|d IH|d IH|d IH|d IH|d IH|d IH];
    [done|..]; intros _;
    (destruct d; [reflexivity|apply endsInDigit_cons, IH; discriminate..]).
Qed.

Lemma formatInt_endsInDigit z : endsInDigit (formatInt z) = true.
Proof.
  unfold formatInt. destruct z as [|p|p]; simpl.
  - reflexivity.
  - apply string_of_uint_endsInDigit, Unsigned.to_uint_nonnil.
  - apply endsInDigit_cons, string_of_uint_endsInDigit, Unsigned.to_uint_nonnil.
Qed.

(** C9.  [generateUpstreamName] returns ["invalid_backend_ref"] if and
    only if the name of the service is empty; for a service with a name it
    returns ["<namespace>_<name>_<port>"], which is never
    ["invalid_backend_ref"]. *)
Theorem generateUpstreamName_invalid_iff (service : backendService) :
  (generateUpstreamName service = InvalidBackendRef ↔ name service = "")
  ∧ (name service ≠ "" →
     generateUpstreamName service
     = namespace service +:+ "_" +:+ name service +:+ "_" +:+ formatInt (port service)
     ∧ namespace service +:+ "_" +:+ name service +:+ "_" +:+ formatInt (port service)
       ≠ InvalidBackendRef).
Proof.
  assert (namespace service +:+ "_" +:+ name service +:+ "_" +:+ formatInt (port service)
          ≠ InvalidBackendRef) as Hne.
  { intros Heq. apply (f_equal endsInDigit) in Heq.
    rewrite endsInDigit_app in Heq; [done|].
    do 3 apply endsInDigit_app. apply formatInt_endsInDigit. }
  unfold generateUpstreamName. destruct (decide (name service = "")) as [He|He].
  - split; [done|]. by intros ?.
  - split; [|done]. split; [by intros ?%Hne|done].
Qed.

(** The two names of the test of the repository. *)
Example generateUpstreamName_test :
  generateUpstreamName {| name := ""; namespace := ""; port := 0 |} = InvalidBackendRef
  ∧ generateUpstreamName {| name := "foo"; namespace := "test"; port := 9090 |}
    = "test_foo_9090".
Proof. by vm_compute. Qed.

(** *** The upstream list *)

Lemma buildUpstreamsIn_fmap entries :
  buildUpstreamsIn entries
  = Some ((λ '(svc, b), {| Upstream.Name := generateUpstreamName svc;
                           Upstream.Endpoints := Endpoints b |}) <$> entries).
Proof.
  unfold buildUpstreamsIn. f_equal.
  induction entries as [|[svc b] entries IH] using rev_ind; [done|].
  by rewrite foldl_snoc, fmap_app, IH.
Qed.

(** Every backend yields an upstream that carries the very endpoint slice
    of the backend, and every upstream comes from a backend. *)
Lemma buildUpstreams_copies_endpoints (backends : gmap backendService backend) u :
  (∃ upstreams, buildUpstreams backends = Some upstreams ∧ u ∈ upstreams)
  ↔ ∃ svc b, backends !! svc = Some b
             ∧ u = {| Upstream.Name := generateUpstreamName svc;
                      Upstream.Endpoints := Endpoints b |}.
Proof.
  unfold buildUpstreams. rewrite buildUpstreamsIn_fmap. split.
  - intros (upstreams & [= <-] & ([svc b] & -> & Hin)%list_elem_of_fmap).
    exists svc, b. by apply elem_of_map_to_list in Hin.
  - intros (svc & b & Hb & ->). eexists. split; [done|].
    apply list_elem_of_fmap. exists (svc, b). by rewrite elem_of_map_to_list.
Qed.

(** C5 fails on the code.  A backend whose endpoint slice is empty but not
    [nil] yields an upstream whose [Endpoints] are that empty slice, not
    [nil]; only the backend whose endpoint slice is [nil] yields [nil]. *)
Theorem buildUpstreams_keeps_empty_endpoints :
  buildUpstreams {[ samples.emptyEndpointsSvc := {| Endpoints := Some [] |} ]}
  = Some [ {| Upstream.Name := "test_empty-endpoints_443";
              Upstream.Endpoints := Some [] |} ]
  ∧ buildUpstreams {[ samples.nilEndpointsSvc := {| Endpoints := None |} ]}
    = Some [ {| Upstream.Name := "test_nil-endpoints_443";
                Upstream.Endpoints := None |} ].
Proof.
  unfold buildUpstreams. by rewrite !map_to_list_singleton.
Qed.

(** *** The change processor *)

Lemma captureGatewayClassChange_gcNamed o c r :
  captureGatewayClassChange o c = Returns r → gcNamed r.1 ∧ cfg r.1 = cfg c.
Proof.
  unfold captureGatewayClassChange. case_decide as Hname; [done|].
  intros [= <-]. split; [|done]. intros o' [= <-]. simpl.
  by destruct (decide (metav1.Name (v1beta1.GatewayClass.ObjectMeta o)
                       = GatewayClassName (cfg c))).
Qed.

Lemma CaptureUpsertChange_gcNamed obj c c' :
  gcNamed c → CaptureUpsertChange obj c = Returns c' → gcNamed c' ∧ cfg c' = cfg c.
Proof.
  intros Hc. destruct obj as [o|o|o|o|o|kind o]; simpl.
  - destruct (captureGatewayClassChange o c) as [r|] eqn:Hr; [|done].
    intros [= <-]. by apply captureGatewayClassChange_gcNamed in Hr.
  - by intros [= <-].
  - by intros [= <-].
  - by intros [= <-].
  - intros [= <-]. unfold captureEndpointSliceChange. by case_match.
  - done.
Qed.

Lemma CaptureDeleteChange_gcNamed resourceType nsname c c' :
  gcNamed c →
  CaptureDeleteChange resourceType nsname c = Returns c' → gcNamed c' ∧ cfg c' = cfg c.
Proof.
  intros Hc. destruct resourceType as [o|o|o|o|o|kind o]; simpl.
  - case_decide; [done|]. by intros [= <-].
  - by intros [= <-].
  - intros [= <-]. split; [|done]. intros o'. simpl.
    destruct (httpRoutes (c_store c) !! nsname); apply Hc.
  - by intros [= <-].
  - by intros [= <-].
  - done.
Qed.

Section Process.

Variables graph Warnings VirtualServer Statuses : Type.
Variable zeroStatuses : Statuses.
Variable buildGraph : store → string → string → graph * Warnings.
Variable buildConfiguration : graph → Configuration VirtualServer.
Variable buildStatuses : graph → Statuses.

Local Abbreviation Process :=
  (Process graph Warnings VirtualServer Statuses zeroStatuses
           buildGraph buildConfiguration buildStatuses).
Local Abbreviation call :=
  (call graph Warnings VirtualServer Statuses zeroStatuses
        buildGraph buildConfiguration buildStatuses).
Local Abbreviation run :=
  (run graph Warnings VirtualServer Statuses zeroStatuses
       buildGraph buildConfiguration buildStatuses).

(** [Process] never touches the store; it leaves the processor with the
    flag down. *)
Lemma Process_state c :
  (Process c).1 = {| c_store := c_store c; storeChanged := false; cfg := cfg c |}.
Proof.
  unfold state.Process. destruct c as [s [] k]; simpl; [|done].
  by destruct (buildGraph _ _ _).
Qed.

Lemma Process_changed c : (Process c).2.1.1 = storeChanged c.
Proof.
  unfold state.Process. destruct (storeChanged c); simpl; [|done].
  by destruct (buildGraph _ _ _).
Qed.

Lemma call_gcNamed op c c' :
  gcNamed c → call op c = Returns c' → gcNamed c' ∧ cfg c' = cfg c.
Proof.
  intros Hc. destruct op as [obj|resourceType nsname|]; simpl.
  - by apply CaptureUpsertChange_gcNamed.
  - by apply CaptureDeleteChange_gcNamed.
  - intros [= <-]. by rewrite Process_state.
Qed.

Lemma run_gcNamed ops c c' :
  gcNamed c → run ops c = Returns c' → gcNamed c' ∧ cfg c' = cfg c.
Proof.
  revert c. induction ops as [|op ops IH]; intros c Hc; simpl.
  - by intros [= <-].
  - destruct (call op c) as [c1|] eqn:Hop; [|done]. intros Hrun.
    destruct (call_gcNamed op c c1 Hc Hop) as [Hc1 Hcfg1].
    destruct (IH c1 Hc1 Hrun) as [Hc' Hcfg']. split; [done|congruence].
Qed.

(** An upsert of a GatewayClass, a Gateway or an HTTPRoute over a
    predecessor of the same [Generation], in a state in which the stored
    GatewayClass has the managed name. *)
Lemma CaptureUpsertChange_same_generation obj c :
  gcNamed c → hasPredecessor obj c →
  ∃ c', CaptureUpsertChange obj c = Returns c'
        ∧ storeChanged c' = storeChanged c ∧ holds obj c'.
Proof.
  intros Hc. destruct obj as [o|o|o|o|o|kind o]; simpl; try done.
  - intros (prev & Hprev & Hname & Hgen).
    unfold captureGatewayClassChange.
    rewrite decide_False by (rewrite <-Hname; intros Hne; by apply Hne, Hc).
    rewrite Hprev. unfold Generation; simpl. rewrite decide_True by done.
    eexists. split; [done|]. split; [apply orb_false_r|done].
  - intros (prev & Hprev & Hgen).
    unfold captureGatewayChange. unfold getNamespacedName in *.
    rewrite Hprev. unfold Generation; simpl. rewrite decide_True by done.
    eexists. split; [done|]. split; [apply orb_false_r|]. simpl.
    apply lookup_insert_eq.
  - intros (prev & Hprev & Hgen).
    unfold captureHTTPRouteChange. unfold getNamespacedName in *.
    rewrite Hprev. unfold Generation; simpl. rewrite decide_True by done.
    eexists. split; [done|]. split; [apply orb_false_r|]. simpl.
    apply lookup_insert_eq.
Qed.

(** C6.  In a state of the processor reached by any run of calls, the
    upsert of a GatewayClass, Gateway or HTTPRoute that has a stored
    predecessor of the same key and an equal [Generation] returns, leaves
    [storeChanged] as it was, and leaves the upserted object in the store
    in place of its predecessor. *)
Theorem upsert_same_generation_keeps_flag (cfg0 : ChangeProcessorConfig)
    (ops : list Call) (c : ChangeProcessorImpl) (obj : client.Object) :
  run ops (NewChangeProcessorImpl cfg0) = Returns c →
  hasPredecessor obj c →
  ∃ c', CaptureUpsertChange obj c = Returns c'
        ∧ storeChanged c' = storeChanged c ∧ holds obj c'.
Proof.
  intros Hrun. apply CaptureUpsertChange_same_generation.
  by apply (run_gcNamed ops (NewChangeProcessorImpl cfg0) c).
Qed.

(** C7.  [Process] returns [(false, Configuration{}, Statuses{})] when
    [storeChanged] is false; it returns [changed] as it found the flag and
    leaves the flag down, so that the second of two consecutive calls
    returns [(false, Configuration{}, Statuses{})]. *)
Theorem Process_without_changes (c : ChangeProcessorImpl) :
  (storeChanged c = false →
   Process c = (c, (false, zeroConfiguration VirtualServer, zeroStatuses)))
  ∧ (Process c).2.1.1 = storeChanged c
  ∧ (Process c).1 = {| c_store := c_store c; storeChanged := false; cfg := cfg c |}
  ∧ (Process (Process c).1).2 = (false, zeroConfiguration VirtualServer, zeroStatuses).
Proof.
  split; [|split; [apply Process_changed|split; [apply Process_state|]]].
  - intros Hf. unfold state.Process. by rewrite Hf.
  - rewrite Process_state. done.
Qed.

(** C10.  The delete of a GatewayClass of the managed name, of a Gateway
    or of an HTTPRoute returns with [storeChanged] set, whatever the store
    holds; the next [Process] then returns [changed = true] with the
    configuration and the statuses built from the graph of the store, and
    takes the flag down. *)
Theorem delete_marks_store_changed (resourceType : client.Object)
    (nsname : NamespacedName) (c : ChangeProcessorImpl) :
  deletedUnconditionally resourceType nsname c →
  ∃ c', CaptureDeleteChange resourceType nsname c = Returns c'
        ∧ storeChanged c' = true
        ∧ Process c'
          = ({| c_store := c_store c'; storeChanged := false; cfg := cfg c' |},
             (true,
              buildConfiguration
                (buildGraph (c_store c') (GatewayCtlrName (cfg c'))
                            (GatewayClassName (cfg c'))).1,
              buildStatuses
                (buildGraph (c_store c') (GatewayCtlrName (cfg c'))
                            (GatewayClassName (cfg c'))).1)).
Proof.
  intros Hkind.
  assert (∃ c', CaptureDeleteChange resourceType nsname c = Returns c'
                ∧ storeChanged c' = true) as (c' & Hdel & Hflag).
  { destruct resourceType as [o|o|o|o|o|kind o]; simpl in *; try done.
    - rewrite decide_False by (by intros ?).
      eexists. split; [done|apply orb_true_r].
    - eexists. split; [done|apply orb_true_r].
    - eexists. split; [done|apply orb_true_r]. }
  exists c'. do 2 (split; [done|]).
  unfold state.Process. rewrite Hflag. simpl. by destruct (buildGraph _ _ _).
Qed.

End Process.

Lemma upsert_same_generation_keeps_flag_witness :
  let run := run (store) unit unit unit tt samples.buildGraph samples.buildConfiguration
                 samples.buildStatuses in
  let c := markChanged (captureGatewayChange (samples.gateway 1)
                          (NewChangeProcessorImpl samples.cfg)) in
  let obj := client.Gateway (samples.gateway 1) in
  run [CallUpsert (client.Gateway (samples.gateway 1)); CallProcess]
      (NewChangeProcessorImpl samples.cfg)
  = Returns {| c_store := c_store c; storeChanged := false; cfg := cfg c |}
  ∧ hasPredecessor obj {| c_store := c_store c; storeChanged := false; cfg := cfg c |}
  ∧ ∃ c', CaptureUpsertChange obj
            {| c_store := c_store c; storeChanged := false; cfg := cfg c |} = Returns c'
          ∧ storeChanged c' = false ∧ holds obj c'.
Proof.
  intros run c obj.
  assert (run [CallUpsert (client.Gateway (samples.gateway 1)); CallProcess]
              (NewChangeProcessorImpl samples.cfg)
          = Returns {| c_store := c_store c; storeChanged := false; cfg := cfg c |})
    as Hrun by reflexivity.
  assert (hasPredecessor obj {| c_store := c_store c; storeChanged := false; cfg := cfg c |})
    as Hprev.
  { exists (samples.gateway 1). split; [apply lookup_insert_eq|reflexivity]. }
  split; [exact Hrun|]. split; [exact Hprev|].
  exact (upsert_same_generation_keeps_flag store unit unit unit tt samples.buildGraph
           samples.buildConfiguration samples.buildStatuses samples.cfg _ _ obj Hrun Hprev).
Defined.

Lemma delete_marks_store_changed_witness :
  let c := NewChangeProcessorImpl samples.cfg in
  let nsname := {| Namespace := "test"; Name := "gateway" |} in
  deletedUnconditionally (client.Gateway (samples.gateway 1)) nsname c
  ∧ ∃ c', CaptureDeleteChange (client.Gateway (samples.gateway 1)) nsname c = Returns c'
          ∧ storeChanged c' = true
          ∧ Process store unit unit unit tt samples.buildGraph samples.buildConfiguration
                    samples.buildStatuses c'
            = ({| c_store := c_store c'; storeChanged := false; cfg := cfg c' |},
               (true,
                samples.buildConfiguration
                  (samples.buildGraph (c_store c') (GatewayCtlrName (cfg c'))
                                      (GatewayClassName (cfg c'))).1,
                samples.buildStatuses
                  (samples.buildGraph (c_store c') (GatewayCtlrName (cfg c'))
                                      (GatewayClassName (cfg c'))).1)).
Proof.
  intros c nsname. split; [exact I|].
  exact (delete_marks_store_changed store unit unit unit tt samples.buildGraph
           samples.buildConfiguration samples.buildStatuses
           (client.Gateway (samples.gateway 1)) nsname c I).
Defined.

(** Scenario 1 of the specification: with no resources, [Process] returns
    [(false, {}, {})]. *)
Example Process_empty_world :
  (Process store unit unit unit tt samples.buildGraph samples.buildConfiguration
           samples.buildStatuses (NewChangeProcessorImpl samples.cfg)).2
  = (false, zeroConfiguration unit, tt).
Proof. reflexivity. Qed.

End state_facts.

(* ===================================================================== *)
(** * Part III: further properties of the code                            *)
(* ===================================================================== *)

(** ** More on the Capturer *)

Module relationship_laws.
Import types relationship relationship_facts.
Local Open Scope Z_scope.

(** *** The extraction of backend service names *)

Lemma foldl_addBackendServiceName hr rules acc s :
  s ∈ foldl (addBackendServiceName hr) acc rules
  ↔ s ∈ acc
    ∨ ∃ rule r rest,
        rule ∈ rules ∧ v1beta1.BackendRefs rule = r :: rest
        ∧ v1beta1.notAService (v1beta1.BackendRef r) = false
        ∧ s = {| Namespace :=
                   default (metav1.Namespace (v1beta1.HTTPRoute.ObjectMeta hr))
                           (v1beta1.BackendRef.Namespace (v1beta1.BackendRef r));
                 Name := v1beta1.BackendRef.Name (v1beta1.BackendRef r) |}.
Proof.
  revert acc. induction rules as [|rule rules IH]; intros acc; cbn [foldl].
  - split; [by left|]. intros [?|(rule & r & rest & []%elem_of_nil & _)]; done.
  - rewrite IH. unfold addBackendServiceName at 1.
    destruct (v1beta1.BackendRefs rule) as [|r rest] eqn:Hrefs.
    + split.
      * intros [?|(rule' & r' & rest' & Hin & H)]; [by left|].
        right. exists rule', r', rest'. split; [by right|done].
      * intros [?|(rule' & r' & rest' & [->|Hin]%elem_of_cons & Hr & H)]; [by left|congruence|].
        right. by exists rule', r', rest'.
    + simpl. destruct (v1beta1.notAService (v1beta1.BackendRef r)) eqn:Hkind.
      * split.
        -- intros [?|(rule' & r' & rest' & Hin & H)]; [by left|].
           right. exists rule', r', rest'. split; [by right|done].
        -- intros [?|(rule' & r' & rest' & [->|Hin]%elem_of_cons & Hr & Hk & H)];
             [by left|congruence|].
           right. by exists rule', r', rest'.
      * rewrite elem_of_union, elem_of_singleton. split.
        -- intros [[->|?]|(rule' & r' & rest' & Hin & H)].
           ++ right. exists rule, r, rest. split; [left|done].
           ++ by left.
           ++ right. exists rule', r', rest'. split; [by right|done].
        -- intros [?|(rule' & r' & rest' & [->|Hin]%elem_of_cons & Hr & Hk & ->)].
           ++ left. by right.
           ++ left. left. congruence.
           ++ right. by exists rule', r', rest'.
Qed.

(** X1.  A service is among the backend service names of a route exactly
    when some rule of the route has a first backend ref whose kind is
    absent or ["Service"], whose name is the name of the service, and whose
    namespace, or the namespace of the route when the ref has none, is the
    namespace of the service.  Further refs of a rule are never read. *)
Theorem getBackendServiceNamesFromRoute_spec (hr : v1beta1.HTTPRoute.t)
    (s : NamespacedName) :
  s ∈ getBackendServiceNamesFromRoute hr
  ↔ ∃ rule r rest,
      rule ∈ v1beta1.Rules (v1beta1.HTTPRoute.Spec hr)
      ∧ v1beta1.BackendRefs rule = r :: rest
      ∧ v1beta1.notAService (v1beta1.BackendRef r) = false
      ∧ s = {| Namespace :=
                 default (metav1.Namespace (v1beta1.HTTPRoute.ObjectMeta hr))
                         (v1beta1.BackendRef.Namespace (v1beta1.BackendRef r));
               Name := v1beta1.BackendRef.Name (v1beta1.BackendRef r) |}.
Proof.
  unfold getBackendServiceNamesFromRoute. rewrite foldl_addBackendServiceName.
  split; [|by right]. by intros [?%not_elem_of_empty|?].
Qed.

(** X2.  The two extractions of the repository agree: the slice that the
    change processor extracts from a route holds exactly the members of
    the set that the Capturer extracts (with repetitions, a service named
    by several rules being listed once per rule), and it is never longer
    than the list of rules. *)
Theorem getBackendServiceNamesFromRoute_agree (hr : v1beta1.HTTPRoute.t) :
  list_to_set (state.getBackendServiceNamesFromRoute hr)
  = getBackendServiceNamesFromRoute hr
  ∧ (length (state.getBackendServiceNamesFromRoute hr)
     ≤ length (v1beta1.Rules (v1beta1.HTTPRoute.Spec hr)))%nat.
Proof.
  unfold state.getBackendServiceNamesFromRoute, getBackendServiceNamesFromRoute.
  match goal with |- context [foldl ?g [] _] => set (f := g) end.
  assert (∀ acc rule,
            f acc rule
            = match v1beta1.BackendRefs rule with
              | [] => acc
              | r :: _ =>
                  if v1beta1.notAService (v1beta1.BackendRef r) then acc
                  else acc ++ [ {| Namespace :=
                                     default (metav1.Namespace
                                                (v1beta1.HTTPRoute.ObjectMeta hr))
                                             (v1beta1.BackendRef.Namespace
                                                (v1beta1.BackendRef r));
                                   Name := v1beta1.BackendRef.Name
                                             (v1beta1.BackendRef r) |} ]
              end) as Hf by done.
  clearbody f.
  assert (∀ rules (acc : list NamespacedName),
            list_to_set (foldl f acc rules)
            = foldl (addBackendServiceName hr) (list_to_set acc) rules
            ∧ (length (foldl f acc rules) ≤ length acc + length rules)%nat) as Hgen.
  { induction rules as [|rule rules IH]; intros acc; cbn [foldl].
    - split; [done|lia].
    - destruct (IH (f acc rule)) as [-> Hlen]. revert Hlen.
      rewrite Hf. unfold addBackendServiceName.
      destruct (v1beta1.BackendRefs rule) as [|r rest];
        [intros Hlen; split; [done|simpl; lia]|].
      simpl. destruct (v1beta1.notAService (v1beta1.BackendRef r));
        [intros Hlen; split; [done|simpl; lia]|].
      rewrite length_app. simpl. intros Hlen. split; [|lia].
      f_equal. rewrite list_to_set_app_L. simpl.
      rewrite (right_id_L ∅ (∪)). apply (comm_L (∪)). }
  destruct (Hgen (v1beta1.Rules (v1beta1.HTTPRoute.Spec hr)) []) as [Heq Hlen].
  split; [exact Heq|exact Hlen].
Qed.

(** *** Queries, and how calls compose *)

Section Laws.

Variable GetServiceNameFromEndpointSlice : discoveryV1.EndpointSlice.t → string.

Local Abbreviation Capture := (Capture GetServiceNameFromEndpointSlice).
Local Abbreviation replay := (replay GetServiceNameFromEndpointSlice).

(** X4.  [Capture] of an EndpointSlice without a service name changes
    nothing (an owner recorded earlier for the slice stays); with a service
    name, the slice exists for the Capturer from then on exactly when the
    Service of that name in the namespace of the slice does; and once the
    slice is removed it does not exist, whatever the Service. *)
Theorem endpointSlice_exists_with_its_owner (o rt : discoveryV1.EndpointSlice.t)
    (svc : v1.Service.t) (c : Capturer) :
  let key := client.ObjectKeyFromObject (client.EndpointSlice o) in
  let owner := {| Namespace := metav1.Namespace (discoveryV1.EndpointSlice.ObjectMeta o);
                  Name := GetServiceNameFromEndpointSlice o |} in
  (GetServiceNameFromEndpointSlice o = "" → Capture (client.EndpointSlice o) c = c)
  ∧ (GetServiceNameFromEndpointSlice o ≠ "" →
     Exists (client.EndpointSlice rt) key (Capture (client.EndpointSlice o) c)
     = Exists (client.Service svc) owner c)
  ∧ Exists (client.EndpointSlice rt) key
      (Remove (client.EndpointSlice rt) key (Capture (client.EndpointSlice o) c))
    = false.
Proof.
  intros key owner. split; [|split].
  - intros Hname. simpl. by rewrite decide_False by (by intros ?).
  - intros Hname. simpl. rewrite decide_True by done. simpl.
    fold key. by rewrite lookup_insert_eq.
  - simpl. by rewrite lookup_delete_eq.
Qed.

(** X5.  In whatever order Go enumerates the keys of the old and of the
    new service set, [upsertForRoute] leaves the same Capturer; so does
    [deleteForRoute] for the order of the service set of the route. *)
Theorem enumeration_order_is_irrelevant (oldKeys newKeys keys : list NamespacedName)
    (route : v1beta1.HTTPRoute.t) (routeName : NamespacedName) (c : Capturer) :
  oldKeys ≡ₚ elements (default ∅ (routesToServices c !! routeKey route)) →
  newKeys ≡ₚ elements (getBackendServiceNamesFromRoute route) →
  keys ≡ₚ elements (default ∅ (routesToServices c !! routeName)) →
  upsertForRouteIn oldKeys newKeys route c = upsertForRoute route c
  ∧ deleteForRouteIn keys routeName c = deleteForRoute routeName c.
Proof.
  intros Hold Hnew Hkeys. split.
  - by apply upsertForRoute_any_order.
  - by apply deleteForRoute_any_order.
Qed.

(** X6.  In a state reached by replaying calls on a new Capturer, the
    last [Capture] of a route wins: capturing a route and then a route of
    the same key leaves the Capturer as the second [Capture] alone would.
    In particular, capturing the same route twice is capturing it once. *)
Theorem last_Capture_wins (ops : list Call) (x x' : v1beta1.HTTPRoute.t) :
  Z.of_nat (length ops) + 2 ≤ goint.maxInt →
  routeKey x = routeKey x' →
  Capture (client.HTTPRoute x') (Capture (client.HTTPRoute x) (replay ops))
  = Capture (client.HTTPRoute x') (replay ops).
Proof.
  intros Hlen Hkey.
  pose proof (replay_consistent GetServiceNameFromEndpointSlice
                (ops ++ [CallCapture (client.HTTPRoute x)]
                     ++ [CallCapture (client.HTTPRoute x')])) as H1.
  pose proof (replay_consistent GetServiceNameFromEndpointSlice
                (ops ++ [CallCapture (client.HTTPRoute x')])) as H2.
  rewrite app_assoc, !replay_snoc in H1. rewrite replay_snoc in H2.
  rewrite !length_app in H1. rewrite length_app in H2. simpl in H1, H2.
  apply consistent_eq.
  - apply H1. lia.
  - apply H2. lia.
  - rewrite !Capture_routes, Hkey. apply insert_insert_eq.
  - by rewrite !Capture_owners_route.
Qed.

Lemma Remove_absent resourceType nsname c :
  match resourceType with
  | client.HTTPRoute _ => routesToServices c !! nsname = None
  | client.EndpointSlice _ => endpointSliceOwners c !! nsname = None
  | _ => True
  end →
  Remove resourceType nsname c = c.
Proof.
  destruct resourceType; simpl; intros Habs; try done.
  - by apply deleteForRoute_untracked.
  - rewrite delete_id by done. by destruct c.
Qed.

(** X7.  In every state of the Capturer, [Remove] of a route that is not
    tracked, or of an EndpointSlice whose owner is not recorded, changes
    nothing: no count is decremented for it.  Hence removing twice is
    removing once. *)
Theorem Remove_is_idempotent (resourceType : client.Object) (nsname : NamespacedName)
    (c : Capturer) :
  (routesToServices c !! nsname = None → endpointSliceOwners c !! nsname = None →
   Remove resourceType nsname c = c)
  ∧ Remove resourceType nsname (Remove resourceType nsname c)
    = Remove resourceType nsname c.
Proof.
  split.
  - intros Hr Ho. apply Remove_absent. by destruct resourceType.
  - apply Remove_absent. destruct resourceType; try done.
    + rewrite Remove_routes. apply lookup_delete_eq.
    + simpl. apply lookup_delete_eq.
Qed.

End Laws.

Lemma Exists_service_witness :
  let ops := [ CallCapture (client.HTTPRoute samples.hr1);
               CallCapture (client.HTTPRoute samples.hr2);
               CallRemove (client.HTTPRoute samples.hr1) (routeKey samples.hr1) ] in
  let s := {| Namespace := "test"; Name := "foo" |} in
  Z.of_nat (length ops) ≤ goint.maxInt
  ∧ (Exists (client.Service samples.svcTargetPort80) s (replay samples.serviceNameLabel ops)
     = true
     ↔ (0 < referencing (lastCaptured ops) s)%nat).
Proof.
  intros ops s.
  assert (Z.of_nat (length ops) ≤ goint.maxInt) as Hlen
    by (unfold goint.maxInt; simpl; lia).
  split; [exact Hlen|].
  exact (Exists_service samples.serviceNameLabel ops samples.svcTargetPort80 s Hlen).
Defined.

Lemma enumeration_order_is_irrelevant_witness :
  let c := relationship.Capture samples.serviceNameLabel (client.HTTPRoute samples.hr2)
             NewCapturer in
  let route := samples.hr2 in
  let routeName := routeKey samples.hr2 in
  let oldKeys := reverse (elements (default ∅ (routesToServices c !! routeKey route))) in
  let newKeys := reverse (elements (getBackendServiceNamesFromRoute route)) in
  let keys := reverse (elements (default ∅ (routesToServices c !! routeName))) in
  (oldKeys ≡ₚ elements (default ∅ (routesToServices c !! routeKey route))
   ∧ newKeys ≡ₚ elements (getBackendServiceNamesFromRoute route)
   ∧ keys ≡ₚ elements (default ∅ (routesToServices c !! routeName)))
  ∧ upsertForRouteIn oldKeys newKeys route c = upsertForRoute route c
  ∧ deleteForRouteIn keys routeName c = deleteForRoute routeName c.
Proof.
  intros c route routeName oldKeys newKeys keys.
  assert (oldKeys ≡ₚ elements (default ∅ (routesToServices c !! routeKey route))) as H1
    by apply reverse_Permutation.
  assert (newKeys ≡ₚ elements (getBackendServiceNamesFromRoute route)) as H2
    by apply reverse_Permutation.
  assert (keys ≡ₚ elements (default ∅ (routesToServices c !! routeName))) as H3
    by apply reverse_Permutation.
  split; [by repeat split|].
  exact (enumeration_order_is_irrelevant oldKeys newKeys keys route routeName c H1 H2 H3).
Defined.

Lemma last_Capture_wins_witness :
  let ops := [ CallCapture (client.HTTPRoute samples.hr1) ] in
  let x := samples.route "hr-2" 1 ["foo"] in
  let x' := samples.hr2 in
  (Z.of_nat (length ops) + 2 ≤ goint.maxInt ∧ routeKey x = routeKey x')
  ∧ relationship.Capture samples.serviceNameLabel (client.HTTPRoute x')
      (relationship.Capture samples.serviceNameLabel (client.HTTPRoute x)
         (replay samples.serviceNameLabel ops))
    = relationship.Capture samples.serviceNameLabel (client.HTTPRoute x')
        (replay samples.serviceNameLabel ops).
Proof.
  intros ops x x'.
  assert (Z.of_nat (length ops) + 2 ≤ goint.maxInt) as Hlen
    by (unfold goint.maxInt; simpl; lia).
  assert (routeKey x = routeKey x') as Hkey by reflexivity.
  split; [by split|].
  exact (last_Capture_wins samples.serviceNameLabel ops x x' Hlen Hkey).
Defined.

End relationship_laws.

(** ** More on the endpoint resolver *)

Module resolver_laws.
Import resolver resolver_facts.
Local Open Scope Z_scope.

Lemma int_add_int a b : goint.int (goint.int a + b) = goint.int (a + b).
Proof.
  unfold goint.int, goint.wrap. f_equal.
  replace ((a + 2 ^ (64 - 1)) mod 2 ^ 64 - 2 ^ (64 - 1) + b + 2 ^ (64 - 1))
    with ((a + 2 ^ (64 - 1)) mod 2 ^ 64 + b) by lia.
  rewrite Zplus_mod_idemp_l. f_equal; lia.
Qed.

Lemma int_nonneg_small x : 0 ≤ x → goint.int x < 0 → 2 ^ 63 ≤ x.
Proof.
  intros H0 Hneg. destruct (decide (x < 2 ^ 63)) as [Hlt|]; [|lia].
  rewrite goint_facts.int_small in Hneg by lia. lia.
Qed.

Lemma addReadyAddresses_int endpoints a :
  addReadyAddresses (goint.int a) endpoints
  = goint.int (a + Z.of_nat (length (e ← filter (λ e, endpointReady e = true) endpoints;
                                     discoveryV1.Addresses e))).
Proof.
  unfold addReadyAddresses. revert a.
  induction endpoints as [|e endpoints IH]; intros a; cbn [foldl].
  - simpl. f_equal; lia.
  - rewrite filter_cons. destruct (endpointReady e) eqn:He.
    + rewrite decide_True by done.
      rewrite bind_cons, length_app, Nat2Z.inj_add, int_add_int, IH. f_equal; lia.
    + rewrite decide_False by done. apply IH.
Qed.

Lemma capacity_from_int items targetPort a :
  foldl (λ capacity es,
           if ignoreEndpointSlice es targetPort then capacity
           else addReadyAddresses capacity (discoveryV1.EndpointSlice.Endpoints es))
        (goint.int a) items
  = goint.int (a + Z.of_nat (length (emitted targetPort items))).
Proof.
  revert a. induction items as [|es items IH]; intros a.
  - simpl. f_equal; lia.
  - rewrite length_emitted_cons, Nat2Z.inj_add. cbn [foldl].
    destruct (ignoreEndpointSlice es targetPort).
    + rewrite IH. f_equal; lia.
    + rewrite addReadyAddresses_int, IH. f_equal; lia.
Qed.

Lemma capacity_int items targetPort :
  calculateEndpointSliceCapacity items targetPort
  = goint.int (Z.of_nat (length (emitted targetPort items))).
Proof.
  unfold calculateEndpointSliceCapacity.
  change 0 with (goint.int 0) at 1. by rewrite capacity_from_int.
Qed.

Section Laws.

Variable Atoi : string → Z.
Variable growslice : Z → Z.

Local Abbreviation getTargetPort := (getTargetPort Atoi).
Local Abbreviation findTargetPort := (findTargetPort Atoi).
Local Abbreviation enumerate := (enumerate growslice).
Local Abbreviation resolveEndpoints := (resolveEndpoints Atoi growslice).
Local Abbreviation Resolve := (Resolve Atoi growslice).

(** X8.  Whatever the slices, [calculateEndpointSliceCapacity] is the
    number of endpoints that the loop of [resolveEndpoints] produces, as a
    64-bit integer: the count of the addresses of the ready endpoints of
    the slices that are not ignored, wrapped around. *)
Theorem calculateEndpointSliceCapacity_wraps (items : list discoveryV1.EndpointSlice.t)
    (targetPort : Z) (capacity : Z) :
  calculateEndpointSliceCapacity items targetPort
  = goint.int (Z.of_nat (length (elems (enumerate targetPort (make capacity) items)))).
Proof. rewrite enumerate_elems. apply capacity_int. Qed.

Lemma findTargetPort_Some ports svcPort targetPort :
  findTargetPort ports svcPort = Some targetPort
  ↔ ∃ before port after,
      ports = before ++ port :: after
      ∧ (∀ p, p ∈ before → v1.Port p ≠ svcPort)
      ∧ v1.Port port = svcPort
      ∧ intstr.IntValue Atoi (v1.TargetPort port) ≠ 0
      ∧ targetPort = goint.int32 (intstr.IntValue Atoi (v1.TargetPort port)).
Proof.
  induction ports as [|p ports IH]; simpl.
  - split; [done|]. intros (before & port & after & Heq & _). by destruct before.
  - destruct (decide (v1.Port p = svcPort)) as [Hp|Hp].
    + assert (∀ before port after,
                p :: ports = before ++ port :: after →
                (∀ q, q ∈ before → v1.Port q ≠ svcPort) →
                before = [] ∧ port = p ∧ after = ports) as Hfirst.
      { intros [|q before] port after Heq Hbefore; simpl in Heq.
        - by injection Heq as <- <-.
        - injection Heq as <- _. destruct (Hbefore p); [left|done]. }
      destruct (decide (intstr.IntValue Atoi (v1.TargetPort p) = 0)) as [Hv|Hv].
      * split; [done|]. intros (before & port & after & Heq & Hbefore & _ & Hval & _).
        destruct (Hfirst _ _ _ Heq Hbefore) as (_ & -> & _). done.
      * split.
        -- intros [= <-]. exists [], p, ports. repeat split; try done.
           by intros ? ?%elem_of_nil.
        -- intros (before & port & after & Heq & Hbefore & _ & _ & ->).
           destruct (Hfirst _ _ _ Heq Hbefore) as (_ & -> & _). done.
    + rewrite IH. split.
      * intros (before & port & after & -> & Hbefore & Hrest).
        exists (p :: before), port, after. split; [done|]. split; [|done].
        intros q [->|Hq]%elem_of_cons; [done|by apply Hbefore].
      * intros ([|q before] & port & after & Heq & Hbefore & Hport & Hrest);
          simpl in Heq.
        -- injection Heq as <- _. done.
        -- injection Heq as <- ->.
           exists before, port, after. split; [done|]. split; [|done].
           intros q Hq. apply Hbefore. by right.
Qed.

(** X9.  [getTargetPort] succeeds exactly when the first port of the
    Service whose [Port] is the service port has a non-zero target port,
    and then returns that target port as an [int32]; ports after that
    first one are never read, so a later port of the same number with a
    valid target does not help.  In every other case it returns the "no
    matching target port" error. *)
Theorem getTargetPort_first_match (svc : v1.Service.t) (svcPort : Z) :
  (∀ targetPort,
     getTargetPort svc svcPort = Ok targetPort
     ↔ ∃ before port after,
         v1.Ports (v1.Service.Spec svc) = before ++ port :: after
         ∧ (∀ p, p ∈ before → v1.Port p ≠ svcPort)
         ∧ v1.Port port = svcPort
         ∧ intstr.IntValue Atoi (v1.TargetPort port) ≠ 0
         ∧ targetPort = goint.int32 (intstr.IntValue Atoi (v1.TargetPort port)))
  ∧ ((∀ targetPort, getTargetPort svc svcPort ≠ Ok targetPort) →
     getTargetPort svc svcPort
     = Err (ErrNoMatchingTargetPort (metav1.Namespace (v1.Service.ObjectMeta svc))
                                    (metav1.Name (v1.Service.ObjectMeta svc)) svcPort)).
Proof.
  unfold resolver.getTargetPort. split.
  - intros targetPort. rewrite <-findTargetPort_Some.
    destruct (findTargetPort _ _); split; congruence.
  - intros Hno. destruct (findTargetPort _ _) as [targetPort|]; [|done].
    by destruct (Hno targetPort).
Qed.

(** X10.  The target port that [getTargetPort] returns is an [int32]: it
    lies between -2^31 and 2^31 - 1, and it is the target port of the
    Service itself when that is an integer in this range. *)
Theorem getTargetPort_int32 (svc : v1.Service.t) (svcPort targetPort : Z) :
  getTargetPort svc svcPort = Ok targetPort →
  - 2 ^ 31 ≤ targetPort < 2 ^ 31
  ∧ ∃ port, port ∈ v1.Ports (v1.Service.Spec svc)
            ∧ v1.Port port = svcPort
            ∧ (- 2 ^ 31 ≤ intstr.IntValue Atoi (v1.TargetPort port) < 2 ^ 31 →
               targetPort = intstr.IntValue Atoi (v1.TargetPort port)).
Proof.
  unfold resolver.getTargetPort.
  destruct (findTargetPort _ _) as [tp|] eqn:Hfind; [|done]. intros [= ->].
  apply findTargetPort_Some in Hfind
    as (before & port & after & Hports & _ & Hport & _ & ->).
  split.
  - unfold goint.int32, goint.wrap.
    pose proof (Z.mod_pos_bound (intstr.IntValue Atoi (v1.TargetPort port) + 2 ^ (32 - 1))
                  (2 ^ 32)) as Hb.
    lia.
  - exists port. rewrite Hports. split; [|split; [done|]].
    + apply elem_of_app. right. left.
    + intros Hrange. unfold goint.int32, goint.wrap. rewrite Z.mod_small; lia.
Qed.

(** X11.  A successful [Resolve] never returns an empty list of
    endpoints; and [Resolve] panics (in [make], on a negative capacity)
    only for slices with 2^63 endpoints or more to enumerate. *)
Theorem Resolve_nonempty_or_error (e : ServiceResolverImpl) (svc : option v1.Service.t)
    (svcPort : Z) :
  (∀ endpoints, Resolve e svc svcPort = Ok endpoints → elems endpoints ≠ [])
  ∧ (Resolve e svc svcPort = Panic →
     ∃ svc' items targetPort,
       svc = Some svc'
       ∧ List (client e) (metav1.Name (v1.Service.ObjectMeta svc'))
                         (metav1.Namespace (v1.Service.ObjectMeta svc')) = Some items
       ∧ getTargetPort svc' svcPort = Ok targetPort
       ∧ 2 ^ 63 ≤ Z.of_nat (length (emitted targetPort items))).
Proof.
  unfold resolver.Resolve, resolver.resolveEndpoints.
  destruct svc as [svc'|]; [|done].
  destruct (List _ _ _) as [items|] eqn:Hlist; [|done].
  destruct (decide (length items = 0%nat)); [done|].
  destruct (getTargetPort svc' svcPort) as [targetPort| |] eqn:Htp; [|done|].
  - rewrite capacity_int.
    destruct (decide (goint.int (Z.of_nat (length (emitted targetPort items))) = 0))
      as [H0|H0]; [done|].
    destruct (decide (goint.int (Z.of_nat (length (emitted targetPort items))) < 0))
      as [Hneg|Hneg].
    + split; [done|]. intros _. exists svc', items, targetPort.
      do 3 (split; [done|]). apply int_nonneg_small; [lia|done].
    + split; [|done]. intros endpoints [= <-]. rewrite enumerate_elems.
      intros Hnil. by rewrite Hnil in H0.
  - unfold resolver.getTargetPort in Htp. by destruct (findTargetPort _ _).
Qed.

Lemma foldl_filter_skip {A B} (f : A → B → A) (P : B → Prop) `{!∀ x, Decision (P x)}
    (l : list B) (a : A) :
  (∀ a x, ¬ P x → f a x = a) → foldl f a (filter P l) = foldl f a l.
Proof.
  intros Hskip. revert a. induction l as [|x l IH]; intros a; [done|].
  rewrite filter_cons. destruct (decide (P x)); simpl.
  - apply IH.
  - rewrite Hskip by done. apply IH.
Qed.

(** X12.  Slices that are ignored for the target port (of an address
    type other than IPv4, or without the target port among their ports)
    have no influence on [resolveEndpoints]: it returns what it returns
    for the list without them. *)
Theorem resolveEndpoints_without_ignored_slices (svc : v1.Service.t) (svcPort : Z)
    (items : list discoveryV1.EndpointSlice.t) :
  resolveEndpoints svc svcPort items
  = match getTargetPort svc svcPort with
    | Ok targetPort =>
        resolveEndpoints svc svcPort
          (filter (λ es, ignoreEndpointSlice es targetPort = false) items)
    | Err err => Err err
    | Panic => Panic
    end.
Proof.
  unfold resolver.resolveEndpoints.
  destruct (getTargetPort svc svcPort) as [targetPort| |]; [|done..].
  unfold calculateEndpointSliceCapacity, resolver.enumerate.
  rewrite !(foldl_filter_skip _ (λ es, ignoreEndpointSlice es targetPort = false)); [done|..].
  - intros a es Hig. by destruct (ignoreEndpointSlice es targetPort).
  - intros a es Hig. by destruct (ignoreEndpointSlice es targetPort).
Qed.

(** X14.  What [Resolve] returns, case by case, for slices whose
    enumeration a machine can hold: "cannot resolve a nil Service" without
    a Service; else "no endpoints found" when the query for the slices
    fails or returns none; else the error of [getTargetPort]; else "no
    valid endpoints" when no address of a ready endpoint of a slice in use
    is left; else those addresses, each with the target port, in a slice
    that is exactly full. *)
Theorem Resolve_outcome (e : ServiceResolverImpl) (svc : option v1.Service.t)
    (svcPort : Z) :
  (∀ svc' items targetPort,
     svc = Some svc' →
     List (client e) (metav1.Name (v1.Service.ObjectMeta svc'))
                     (metav1.Namespace (v1.Service.ObjectMeta svc')) = Some items →
     getTargetPort svc' svcPort = Ok targetPort →
     Z.of_nat (length (emitted targetPort items)) ≤ goint.maxInt) →
  Resolve e svc svcPort
  = match svc with
    | None => Err ErrNilService
    | Some svc' =>
        let key := client.ObjectKeyFromObject (client.Service svc') in
        match List (client e) (metav1.Name (v1.Service.ObjectMeta svc'))
                              (metav1.Namespace (v1.Service.ObjectMeta svc')) with
        | None | Some [] => Err (ErrNoEndpointsFound key)
        | Some items =>
            match getTargetPort svc' svcPort with
            | Ok targetPort =>
                match emitted targetPort items with
                | [] => Err (ErrNoValidEndpoints key svcPort)
                | endpoints =>
                    Ok {| elems := endpoints;
                          cap := Z.of_nat (length endpoints);
                          reallocs := 0 |}
                end
            | Err err => Err err
            | Panic => Panic
            end
        end
    end.
Proof.
  intros Hfits. unfold resolver.Resolve. destruct svc as [svc'|]; [|done].
  destruct (List _ _ _) as [[|es items]|] eqn:Hlist; [done| |done].
  rewrite decide_False by done. unfold resolver.resolveEndpoints.
  destruct (getTargetPort svc' svcPort) as [targetPort| |] eqn:Htp; [|done..].
  pose proof (Hfits svc' (es :: items) targetPort eq_refl Hlist Htp) as Hlen.
  rewrite (calculateEndpointSliceCapacity_exact _ _ Hlen).
  pose proof (enumerate_presized growslice targetPort (es :: items)) as Hfull.
  destruct (emitted targetPort (es :: items)) as [|ep l]; [done|].
  rewrite decide_False by (simpl; lia). rewrite decide_False by lia.
  by rewrite Hfull.
Qed.

End Laws.

(** X13.  An EndpointSlice is used for a target port exactly when its
    address type is IPv4 and one of its ports has a number, and that number
    is the target port; a port without a number never matches. *)
Theorem slice_is_used_iff (es : discoveryV1.EndpointSlice.t) (targetPort : Z) :
  ignoreEndpointSlice es targetPort = false
  ↔ discoveryV1.EndpointSlice.AddressType es = "IPv4"
    ∧ ∃ port, port ∈ discoveryV1.EndpointSlice.Ports es
              ∧ discoveryV1.Port port = Some targetPort.
Proof. apply ignoreEndpointSlice_false. Qed.

Lemma getTargetPort_int32_witness :
  getTargetPort samples.atoi samples.svcStringTargetPort 80 = Ok 8080
  ∧ - 2 ^ 31 ≤ 8080 < 2 ^ 31
  ∧ ∃ port, port ∈ v1.Ports (v1.Service.Spec samples.svcStringTargetPort)
            ∧ v1.Port port = 80
            ∧ (- 2 ^ 31 ≤ intstr.IntValue samples.atoi (v1.TargetPort port) < 2 ^ 31 →
               8080 = intstr.IntValue samples.atoi (v1.TargetPort port)).
Proof.
  assert (getTargetPort samples.atoi samples.svcStringTargetPort 80 = Ok 8080) as Htp
    by (vm_compute; reflexivity).
  split; [exact Htp|].
  exact (getTargetPort_int32 samples.atoi samples.svcStringTargetPort 80 8080 Htp).
Defined.

Lemma Resolve_outcome_witness :
  let e := samples.resolverOver [samples.mixedValidityEndpointSlice] in
  let svc := Some samples.svcTargetPort80 in
  (∀ svc' items targetPort,
     svc = Some svc' →
     List (client e) (metav1.Name (v1.Service.ObjectMeta svc'))
                     (metav1.Namespace (v1.Service.ObjectMeta svc')) = Some items →
     getTargetPort samples.atoi svc' 80 = Ok targetPort →
     Z.of_nat (length (emitted targetPort items)) ≤ goint.maxInt)
  ∧ Resolve samples.atoi samples.grow e svc 80 = Ok samples.sixEndpoints.
Proof.
  intros e svc.
  assert (∀ svc' items targetPort,
            svc = Some svc' →
            List (client e) (metav1.Name (v1.Service.ObjectMeta svc'))
                            (metav1.Namespace (v1.Service.ObjectMeta svc')) = Some items →
            getTargetPort samples.atoi svc' 80 = Ok targetPort →
            Z.of_nat (length (emitted targetPort items)) ≤ goint.maxInt) as Hfits.
  { intros svc' items targetPort [= <-] [= <-] [= <-]. by vm_compute. }
  split; [exact Hfits|].
  exact (Resolve_outcome samples.atoi samples.grow e svc 80 Hfits).
Defined.

End resolver_laws.

(** ** More on upstreams and the change processor *)

Module state_laws.
Import types state state_facts.
Local Open Scope Z_scope.

(** *** Upstream names *)

Lemma formatInt_read z :
  option_map Z.of_int (NilEmpty.int_of_string (formatInt z)) = Some z.
Proof. unfold formatInt. rewrite NilEmpty.isi. simpl. by rewrite DecimalZ.of_to. Qed.

Lemma formatInt_inj z z' : formatInt z = formatInt z' → z = z'.
Proof.
  intros Heq. pose proof (formatInt_read z) as H1.
  rewrite Heq, formatInt_read in H1. congruence.
Qed.

Lemma split_at_underscore a1 a2 b1 b2 :
  hasUnderscore a1 = false → hasUnderscore a2 = false →
  a1 +:+ "_" +:+ b1 = a2 +:+ "_" +:+ b2 → a1 = a2 ∧ b1 = b2.
Proof.
  revert a2. induction a1 as [|c1 a1 IH]; intros [|c2 a2]; cbn.
  - intros _ _ [= Heq]. done.
  - intros _ H2 [= <- _]. done.
  - intros H1 _ [= -> _]. done.
  - destruct (Ascii.N_of_ascii c1 =? 95)%N eqn:E1; [done|].
    destruct (Ascii.N_of_ascii c2 =? 95)%N eqn:E2; [done|].
    intros H1 H2 [= -> Hrest]. destruct (IH a2 H1 H2 Hrest) as [-> ->]. done.
Qed.

(** X15.  Backend services with a name, whose names and namespaces have
    no underscore (as those of Kubernetes objects), get different upstream
    names unless they are the same service. *)
Theorem generateUpstreamName_injective (s1 s2 : backendService) :
  name s1 ≠ "" → name s2 ≠ "" →
  hasUnderscore (namespace s1) = false → hasUnderscore (name s1) = false →
  hasUnderscore (namespace s2) = false → hasUnderscore (name s2) = false →
  generateUpstreamName s1 = generateUpstreamName s2 →
  s1 = s2.
Proof.
  intros Hn1 Hn2 Hu1 Hu1' Hu2 Hu2'. unfold generateUpstreamName.
  rewrite !decide_False by done. intros Heq.
  apply split_at_underscore in Heq as [Hns Heq]; [|done..].
  apply split_at_underscore in Heq as [Hname Heq]; [|done..].
  apply formatInt_inj in Heq.
  destruct s1, s2; simpl in *. congruence.
Qed.

(** Names with underscores can collide. *)
Example generateUpstreamName_collision :
  generateUpstreamName {| name := "c"; namespace := "a_b"; port := 80 |}
  = generateUpstreamName {| name := "b_c"; namespace := "a"; port := 80 |}.
Proof. reflexivity. Qed.

Lemma generateUpstreamName_injective_witness :
  let s1 := {| name := "foo"; namespace := "test"; port := 80 |} in
  let s2 := {| name := "foo"; namespace := "test"; port := 80 |} in
  (name s1 ≠ "" ∧ name s2 ≠ ""
   ∧ hasUnderscore (namespace s1) = false ∧ hasUnderscore (name s1) = false
   ∧ hasUnderscore (namespace s2) = false ∧ hasUnderscore (name s2) = false
   ∧ generateUpstreamName s1 = generateUpstreamName s2)
  ∧ s1 = s2.
Proof.
  intros s1 s2.
  assert (name s1 ≠ "") as H1 by discriminate.
  assert (name s2 ≠ "") as H2 by discriminate.
  split; [by repeat split|].
  exact (generateUpstreamName_injective s1 s2 H1 H2 eq_refl eq_refl eq_refl eq_refl eq_refl).
Defined.

(** *** The upstream list *)

(** X16.  [buildUpstreams] never returns [nil]; it returns one upstream
    per backend, named after the backend service and carrying the endpoint
    slice of the backend as it is. *)
Theorem buildUpstreams_one_per_backend (backends : gmap backendService backend) :
  ∃ upstreams,
    buildUpstreams backends = Some upstreams
    ∧ length upstreams = size backends
    ∧ ∀ u, u ∈ upstreams
           ↔ ∃ svc b, backends !! svc = Some b
                      ∧ u = {| Upstream.Name := generateUpstreamName svc;
                               Upstream.Endpoints := Endpoints b |}.
Proof.
  unfold buildUpstreams. rewrite buildUpstreamsIn_fmap. eexists. split; [done|]. split.
  - by rewrite length_fmap, length_map_to_list.
  - intros u. rewrite list_elem_of_fmap. split.
    + intros ([svc b] & -> & Hin). exists svc, b. by apply elem_of_map_to_list in Hin.
    + intros (svc & b & Hb & ->). exists (svc, b). by rewrite elem_of_map_to_list.
Qed.

(** *** The routes-per-service index *)

Lemma updateServicesMap_frame hr s :
  gc (updateServicesMap hr s) = gc s
  ∧ gateways (updateServicesMap hr s) = gateways s
  ∧ httpRoutes (updateServicesMap hr s) = httpRoutes s
  ∧ endpointSlices (updateServicesMap hr s) = endpointSlices s.
Proof. done. Qed.

Lemma removeRouteFromServicesMap_frame hr s :
  gc (removeRouteFromServicesMap hr s) = gc s
  ∧ gateways (removeRouteFromServicesMap hr s) = gateways s
  ∧ httpRoutes (removeRouteFromServicesMap hr s) = httpRoutes s
  ∧ endpointSlices (removeRouteFromServicesMap hr s) = endpointSlices s.
Proof. done. Qed.

Lemma updateServicesMap_lookup hr s svc :
  services (updateServicesMap hr s) !! svc
  = if decide (svc ∈ getBackendServiceNamesFromRoute hr)
    then Some ({[ getNamespacedName (client.HTTPRoute hr) ]}
               ∪ default ∅ (services s !! svc))
    else services s !! svc.
Proof.
  unfold updateServicesMap; simpl.
  generalize (services s) as m. generalize (getBackendServiceNamesFromRoute hr) as l.
  set (k := getNamespacedName (client.HTTPRoute hr)).
  induction l as [|x l IH]; intros m; cbn [foldl].
  - rewrite decide_False; [done|]. by intros ?%elem_of_nil.
  - rewrite IH.
    assert (default ∅ (match m !! x with
                       | Some existingRoutesForSvc => <[x:={[k]} ∪ existingRoutesForSvc]> m
                       | None => <[x:={[k]}]> m
                       end !! svc)
            = if decide (svc = x) then {[k]} ∪ default ∅ (m !! x)
              else default ∅ (m !! svc)) as Hdef.
    { destruct (decide (svc = x)) as [->|Hne].
      - destruct (m !! x); simpl; rewrite lookup_insert_eq; simpl; [done|].
        by rewrite (right_id_L ∅ (∪)).
      - by destruct (m !! x); rewrite lookup_insert_ne. }
    destruct (decide (svc ∈ l)) as [Hl|Hl].
    + rewrite decide_True by (by right). f_equal. rewrite Hdef.
      destruct (decide (svc = x)) as [->|]; [|done].
      by rewrite (assoc_L (∪)), (idemp_L (∪)).
    + destruct (decide (svc = x)) as [->|Hne].
      * rewrite decide_True by left.
        destruct (m !! x); rewrite lookup_insert_eq; simpl; [done|].
        by rewrite (right_id_L ∅ (∪)).
      * rewrite decide_False by (by intros [?|?]%elem_of_cons).
        by destruct (m !! x); rewrite lookup_insert_ne.
Qed.

Lemma withoutRoute_idemp k o : withoutRoute k (withoutRoute k o) = withoutRoute k o.
Proof.
  unfold withoutRoute. destruct o as [rs|]; [|done].
  destruct (decide (size (rs ∖ {[k]}) = 0%nat)) as [|Hne]; [done|].
  assert (rs ∖ {[k]} ∖ {[k]} = rs ∖ {[k]}) as ->
    by (apply set_eq; intros y; rewrite !elem_of_difference; tauto).
  by rewrite decide_False.
Qed.

Lemma removeRouteFromServicesMap_lookup hr s svc :
  services (removeRouteFromServicesMap hr s) !! svc
  = if decide (svc ∈ getBackendServiceNamesFromRoute hr)
    then withoutRoute (getNamespacedName (client.HTTPRoute hr)) (services s !! svc)
    else services s !! svc.
Proof.
  unfold removeRouteFromServicesMap; simpl.
  generalize (services s) as m. generalize (getBackendServiceNamesFromRoute hr) as l.
  set (k := getNamespacedName (client.HTTPRoute hr)).
  induction l as [|x l IH]; intros m; cbn [foldl].
  - rewrite decide_False; [done|]. by intros ?%elem_of_nil.
  - rewrite IH.
    assert (match m !! x with
            | Some routesForSvc =>
                if decide (size (routesForSvc ∖ {[k]}) = 0%nat) then delete x m
                else <[x:=routesForSvc ∖ {[k]}]> m
            | None => m
            end !! svc
            = if decide (svc = x) then withoutRoute k (m !! x) else m !! svc) as Hstep.
    { unfold withoutRoute. destruct (decide (svc = x)) as [->|Hne].
      - destruct (m !! x) as [rs|] eqn:Hx; [|done].
        destruct (decide (size (rs ∖ {[k]}) = 0%nat));
          [apply lookup_delete_eq|apply lookup_insert_eq].
      - destruct (m !! x) as [rs|]; [|done].
        destruct (decide (size (rs ∖ {[k]}) = 0%nat));
          [by apply lookup_delete_ne|by apply lookup_insert_ne]. }
    rewrite Hstep. destruct (decide (svc = x)) as [->|Hne].
    + rewrite (decide_True (P := x ∈ x :: l)) by left.
      destruct (decide (x ∈ l)); [apply withoutRoute_idemp|done].
    + apply decide_ext. rewrite elem_of_cons. tauto.
Qed.

Lemma captureHTTPRouteChange_index hr c :
  routesIndexed (c_store c) → noEmptyEntry (c_store c) →
  routesIndexed (c_store (captureHTTPRouteChange hr c).1)
  ∧ noEmptyEntry (c_store (captureHTTPRouteChange hr c).1).
Proof.
  intros Hidx Hne.
  set (k0 := getNamespacedName (client.HTTPRoute hr)).
  set (s' := {| gc := gc (c_store c); gateways := gateways (c_store c);
                httpRoutes := <[k0 := hr]> (httpRoutes (c_store c));
                services := services (c_store c);
                endpointSlices := endpointSlices (c_store c) |}).
  assert (c_store (captureHTTPRouteChange hr c).1 = updateServicesMap hr s') as -> by done.
  assert (∀ svc, services (updateServicesMap hr s') !! svc
                 = if decide (svc ∈ getBackendServiceNamesFromRoute hr)
                   then Some ({[k0]} ∪ default ∅ (services (c_store c) !! svc))
                   else services (c_store c) !! svc) as Hlook
    by (intros svc; exact (updateServicesMap_lookup hr s' svc)).
  split.
  - intros k r Hk.
    change (<[k0 := hr]> (httpRoutes (c_store c)) !! k = Some r) in Hk.
    apply lookup_insert_Some in Hk as [[<- <-]|[Hk0 Hk]].
    + split; [done|]. intros svc Hsvc. rewrite Hlook, decide_True by done.
      eexists. split; [done|]. apply elem_of_union_l. by apply elem_of_singleton.
    + destruct (Hidx k r Hk) as [Hkey Hsvcs]. split; [done|]. intros svc Hsvc.
      destruct (Hsvcs svc Hsvc) as (rs & Hrs & Hin).
      rewrite Hlook, Hrs. case_decide.
      * eexists. split; [done|]. by apply elem_of_union_r.
      * by exists rs.
  - intros svc rs. rewrite Hlook. case_decide.
    + intros [= <-]. intros Hempty.
      apply (not_elem_of_empty (C := gset NamespacedName) k0).
      rewrite <-Hempty. apply elem_of_union_l. by apply elem_of_singleton.
    + apply Hne.
Qed.

Lemma deleteHTTPRoute_index nsname s :
  routesIndexed s → noEmptyEntry s →
  let s1 := match httpRoutes s !! nsname with
            | Some r => removeRouteFromServicesMap r s
            | None => s
            end in
  let s2 := {| gc := gc s1; gateways := gateways s1;
               httpRoutes := delete nsname (httpRoutes s1);
               services := services s1; endpointSlices := endpointSlices s1 |} in
  routesIndexed s2 ∧ noEmptyEntry s2.
Proof.
  intros Hidx Hne s1 s2.
  assert (httpRoutes s1 = httpRoutes s) as Hroutes
    by (unfold s1; by destruct (httpRoutes s !! nsname)).
  split.
  - intros k hr. unfold s2; simpl. rewrite Hroutes.
    intros [Hk Hhr]%lookup_delete_Some. destruct (Hidx k hr Hhr) as [Hkey Hsvcs].
    split; [done|]. intros svc Hsvc. destruct (Hsvcs svc Hsvc) as (rs & Hrs & Hin).
    unfold s1. destruct (httpRoutes s !! nsname) as [r|] eqn:Hr; [|by exists rs].
    destruct (Hidx nsname r Hr) as [Hkr _].
    rewrite removeRouteFromServicesMap_lookup, Hrs. case_decide; [|by exists rs].
    unfold withoutRoute.
    assert (k ∈ rs ∖ {[getNamespacedName (client.HTTPRoute r)]}) as Hin'.
    { apply elem_of_difference. split; [done|]. rewrite <-Hkr.
      by intros ?%elem_of_singleton. }
    rewrite decide_False.
    + by eexists.
    + intros Hsz%size_empty_inv. by apply (not_elem_of_empty (C := gset NamespacedName) k), Hsz.
  - intros svc rs. unfold s2; simpl. unfold s1.
    destruct (httpRoutes s !! nsname) as [r|]; [|apply Hne].
    rewrite removeRouteFromServicesMap_lookup. case_decide; [|apply Hne].
    unfold withoutRoute. destruct (services s !! svc) as [rs'|]; [|done].
    case_decide as Hsz; [done|]. intros [= <-] Hempty.
    apply Hsz. rewrite Hempty. apply size_empty.
Qed.

Lemma CaptureUpsertChange_index obj c c' :
  routesIndexed (c_store c) → noEmptyEntry (c_store c) →
  CaptureUpsertChange obj c = Returns c' →
  routesIndexed (c_store c') ∧ noEmptyEntry (c_store c').
Proof.
  intros Hidx Hne. destruct obj as [o|o|o|o|o|kind o]; simpl.
  - unfold captureGatewayClassChange. case_decide; [done|]. by intros [= <-].
  - by intros [= <-].
  - intros [= <-]. by apply captureHTTPRouteChange_index.
  - by intros [= <-].
  - intros [= <-]. unfold captureEndpointSliceChange. by case_match.
  - done.
Qed.

Lemma CaptureDeleteChange_index resourceType nsname c c' :
  routesIndexed (c_store c) → noEmptyEntry (c_store c) →
  CaptureDeleteChange resourceType nsname c = Returns c' →
  routesIndexed (c_store c') ∧ noEmptyEntry (c_store c').
Proof.
  intros Hidx Hne. destruct resourceType as [o|o|o|o|o|kind o]; simpl.
  - case_decide; [done|]. by intros [= <-].
  - by intros [= <-].
  - intros [= <-]. by apply deleteHTTPRoute_index.
  - by intros [= <-].
  - by intros [= <-].
  - done.
Qed.

Lemma ownedByStoredService_true s namespace ownerRefs :
  ownedByStoredService s namespace ownerRefs = true
  ↔ ∃ ownerRef,
      ownerRef ∈ ownerRefs
      ∧ metav1.OwnerReference.Kind ownerRef = "Service"
      ∧ is_Some (services s !! {| Namespace := namespace;
                                  Name := metav1.OwnerReference.Name ownerRef |}).
Proof.
  induction ownerRefs as [|r ownerRefs IH]; simpl.
  - split; [done|]. by intros (r & ?%elem_of_nil & _).
  - destruct (decide (metav1.OwnerReference.Kind r ≠ "Service")) as [Hk|Hk].
    + rewrite IH. split.
      * intros (r' & Hin & H). exists r'. split; [by right|done].
      * intros (r' & [->|Hin]%elem_of_cons & Hkind & H); [done|]. by exists r'.
    + apply dec_stable in Hk.
      destruct (services s !! {| Namespace := namespace;
                                 Name := metav1.OwnerReference.Name r |}) as [rs|] eqn:Hs.
      * split; [|done]. intros _. exists r. split; [left|]. split; [done|].
        rewrite Hs. by eexists.
      * rewrite IH. split.
        -- intros (r' & Hin & H). exists r'. split; [by right|done].
        -- intros (r' & [->|Hin]%elem_of_cons & Hkind & H).
           ++ rewrite Hs in H. by destruct H.
           ++ by exists r'.
Qed.

Lemma store_eq s1 s2 :
  gc s1 = gc s2 → gateways s1 = gateways s2 → httpRoutes s1 = httpRoutes s2 →
  services s1 = services s2 → endpointSlices s1 = endpointSlices s2 → s1 = s2.
Proof. destruct s1, s2; simpl; congruence. Qed.

(** X17.  Either capture method panics exactly on an object of a kind
    the processor does not support and on a GatewayClass whose name is not
    the managed one (for a delete, the name of the key). *)
Theorem captures_panic_iff (obj : client.Object) (nsname : NamespacedName)
    (c : ChangeProcessorImpl) :
  ((∃ p, CaptureUpsertChange obj c = Panics p)
   ↔ match obj with
     | client.GatewayClass o =>
         metav1.Name (v1beta1.GatewayClass.ObjectMeta o) ≠ GatewayClassName (cfg c)
     | client.Other _ _ => True
     | _ => False
     end)
  ∧ ((∃ p, CaptureDeleteChange obj nsname c = Panics p)
     ↔ match obj with
       | client.GatewayClass _ => Name nsname ≠ GatewayClassName (cfg c)
       | client.Other _ _ => True
       | _ => False
       end).
Proof.
  split; destruct obj as [o|o|o|o|o|kind o]; simpl;
    try (split; [by intros [p ?]|done]); try (split; [done|by eexists]).
  - unfold captureGatewayClassChange. case_decide as Hname.
    + split; [done|by eexists].
    + split; [by intros [p ?]|done].
  - case_decide as Hname.
    + split; [done|by eexists].
    + split; [by intros [p ?]|done].
Qed.

(** X18.  An EndpointSlice is relevant exactly when one of its owner
    references is of kind ["Service"] and names a Service of the namespace
    of the slice that is in the routes-per-service index.  The upsert of a
    slice that is not relevant changes nothing, the flag included; the
    upsert of a relevant slice stores it and marks the store as changed. *)
Theorem endpointSlice_upsert (es : discoveryV1.EndpointSlice.t) (c : ChangeProcessorImpl) :
  (updateNeededForEndpointSlice es (c_store c) = true
   ↔ ∃ ownerRef,
       ownerRef ∈ metav1.OwnerReferences (discoveryV1.EndpointSlice.ObjectMeta es)
       ∧ metav1.OwnerReference.Kind ownerRef = "Service"
       ∧ is_Some (services (c_store c)
                  !! {| Namespace :=
                          metav1.Namespace (discoveryV1.EndpointSlice.ObjectMeta es);
                        Name := metav1.OwnerReference.Name ownerRef |}))
  ∧ (updateNeededForEndpointSlice es (c_store c) = false →
     CaptureUpsertChange (client.EndpointSlice es) c = Returns c)
  ∧ (updateNeededForEndpointSlice es (c_store c) = true →
     ∃ c', CaptureUpsertChange (client.EndpointSlice es) c = Returns c'
           ∧ storeChanged c' = true
           ∧ endpointSlices (c_store c')
             !! getNamespacedName (client.EndpointSlice es) = Some es
           ∧ services (c_store c') = services (c_store c)
           ∧ httpRoutes (c_store c') = httpRoutes (c_store c)).
Proof.
  split; [apply ownedByStoredService_true|]. split.
  - intros Hno. simpl. unfold captureEndpointSliceChange. rewrite Hno.
    f_equal. destruct c as [s flag k]. unfold markChanged; simpl.
    by rewrite orb_false_r.
  - intros Hyes. simpl. unfold captureEndpointSliceChange. rewrite Hyes.
    eexists. split; [done|]. split; [apply orb_true_r|]. split; [|done].
    simpl. apply lookup_insert_eq.
Qed.

(** X19.  An upsert never takes anything out of the routes-per-service
    index: every entry keeps at least the routes it had, also when a route
    is upserted that no longer names the Service. *)
Theorem upsert_never_shrinks_the_index (obj : client.Object) (c c' : ChangeProcessorImpl)
    (svc : NamespacedName) (routesForSvc : gset NamespacedName) :
  CaptureUpsertChange obj c = Returns c' →
  services (c_store c) !! svc = Some routesForSvc →
  ∃ routesForSvc', services (c_store c') !! svc = Some routesForSvc'
                   ∧ routesForSvc ⊆ routesForSvc'.
Proof.
  intros Hup Hsvc. destruct obj as [o|o|o|o|o|kind o]; simpl in Hup.
  - unfold captureGatewayClassChange in Hup. case_decide; [done|].
    injection Hup as <-. by exists routesForSvc.
  - injection Hup as <-. by exists routesForSvc.
  - injection Hup as <-.
    assert (c_store (markChanged (captureHTTPRouteChange o c))
            = updateServicesMap o
                {| gc := gc (c_store c); gateways := gateways (c_store c);
                   httpRoutes := <[getNamespacedName (client.HTTPRoute o) := o]>
                                   (httpRoutes (c_store c));
                   services := services (c_store c);
                   endpointSlices := endpointSlices (c_store c) |}) as -> by done.
    rewrite updateServicesMap_lookup.
    change (services {| gc := gc (c_store c); gateways := gateways (c_store c);
                        httpRoutes := <[getNamespacedName (client.HTTPRoute o) := o]>
                                        (httpRoutes (c_store c));
                        services := services (c_store c);
                        endpointSlices := endpointSlices (c_store c) |})
      with (services (c_store c)).
    rewrite Hsvc. case_decide; [|by exists routesForSvc].
    eexists. split; [done|]. apply union_subseteq_r.
  - injection Hup as <-. by exists routesForSvc.
  - injection Hup as <-. unfold captureEndpointSliceChange.
    case_match; by exists routesForSvc.
  - done.
Qed.

(** X20.  An HTTPRoute that is neither stored nor in any entry of the
    index can be upserted and deleted again, and the store is as it was
    before (with the flag raised): the delete takes the route out of every
    entry the upsert put it in, and removes the entries the upsert made. *)
Theorem httpRoute_upsert_then_delete (hr rt : v1beta1.HTTPRoute.t)
    (c : ChangeProcessorImpl) :
  let k := getNamespacedName (client.HTTPRoute hr) in
  httpRoutes (c_store c) !! k = None →
  (∀ svc routesForSvc,
     services (c_store c) !! svc = Some routesForSvc → k ∉ routesForSvc) →
  noEmptyEntry (c_store c) →
  ∃ c1 c2,
    CaptureUpsertChange (client.HTTPRoute hr) c = Returns c1
    ∧ CaptureDeleteChange (client.HTTPRoute rt) k c1 = Returns c2
    ∧ c_store c2 = c_store c
    ∧ storeChanged c2 = true.
Proof.
  intros k Hk Hfresh Hne. eexists _, _. split; [done|]. split; [done|].
  set (s' := {| gc := gc (c_store c); gateways := gateways (c_store c);
                httpRoutes := <[k := hr]> (httpRoutes (c_store c));
                services := services (c_store c);
                endpointSlices := endpointSlices (c_store c) |}).
  assert (c_store (markChanged (captureHTTPRouteChange hr c)) = updateServicesMap hr s')
    as Hc1 by done.
  split; [|apply orb_true_r].
  rewrite Hc1.
  assert (httpRoutes (updateServicesMap hr s') !! k = Some hr) as ->
    by (exact (lookup_insert_eq (httpRoutes (c_store c)) k hr)).
  apply store_eq; try done.
  - change (delete k (<[k := hr]> (httpRoutes (c_store c))) = httpRoutes (c_store c)).
    by apply delete_insert_id.
  - change (services (removeRouteFromServicesMap hr (updateServicesMap hr s'))
            = services (c_store c)).
    apply map_eq; intros svc.
    rewrite removeRouteFromServicesMap_lookup, updateServicesMap_lookup.
    change (services s') with (services (c_store c)). fold k.
    case_decide; [|done]. unfold withoutRoute.
    destruct (services (c_store c) !! svc) as [rs|] eqn:Hrs; cbn [default from_option id].
    + assert (({[k]} ∪ rs) ∖ {[k]} = rs) as ->.
      { apply set_eq; intros y. rewrite elem_of_difference, elem_of_union, elem_of_singleton.
        split; [tauto|]. intros Hy. split; [by right|]. intros ->.
        by apply (Hfresh svc rs). }
      rewrite decide_False; [done|].
      intros Hsz%size_empty_inv. apply (Hne svc rs Hrs). by apply leibniz_equiv.
    + assert (({[k]} ∪ ∅) ∖ {[k]} = (∅ : gset NamespacedName)) as ->.
      { apply set_eq; intros y. rewrite elem_of_difference, elem_of_union, elem_of_singleton.
        split; [tauto|]. by intros ?%not_elem_of_empty. }
      rewrite size_empty. by rewrite decide_True.
Qed.

(** *** Runs of the processor *)

Lemma capture_flag_upsert obj c c' :
  CaptureUpsertChange obj c = Returns c' → storeChanged c = true → storeChanged c' = true.
Proof.
  destruct obj as [o|o|o|o|o|kind o]; simpl; [| | | | |done].
  - unfold captureGatewayClassChange. case_decide; [done|].
    intros [= <-] Hc. simpl. by rewrite Hc.
  - intros [= <-] Hc. simpl. by rewrite Hc.
  - intros [= <-] Hc. simpl. by rewrite Hc.
  - intros [= <-] Hc. simpl. by rewrite Hc.
  - intros [= <-] Hc. unfold captureEndpointSliceChange.
    case_match; simpl; by rewrite Hc.
Qed.

Lemma capture_flag_delete resourceType nsname c c' :
  CaptureDeleteChange resourceType nsname c = Returns c' →
  storeChanged c = true → storeChanged c' = true.
Proof.
  destruct resourceType as [o|o|o|o|o|kind o]; simpl; [| | | | |done].
  - case_decide; [done|]. intros [= <-] Hc. simpl. by rewrite Hc.
  - intros [= <-] Hc. simpl. by rewrite Hc.
  - intros [= <-] Hc. simpl. by rewrite Hc.
  - intros [= <-] Hc. simpl. by rewrite Hc.
  - intros [= <-] Hc. simpl. by rewrite Hc.
Qed.

Section Runs.

Variables graph Warnings VirtualServer Statuses : Type.
Variable zeroStatuses : Statuses.
Variable buildGraph : store → string → string → graph * Warnings.
Variable buildConfiguration : graph → Configuration VirtualServer.
Variable buildStatuses : graph → Statuses.

Local Abbreviation Process :=
  (Process graph Warnings VirtualServer Statuses zeroStatuses
           buildGraph buildConfiguration buildStatuses).
Local Abbreviation call :=
  (call graph Warnings VirtualServer Statuses zeroStatuses
        buildGraph buildConfiguration buildStatuses).
Local Abbreviation run :=
  (run graph Warnings VirtualServer Statuses zeroStatuses
       buildGraph buildConfiguration buildStatuses).

Lemma run_index ops c c' :
  routesIndexed (c_store c) → noEmptyEntry (c_store c) →
  run ops c = Returns c' →
  routesIndexed (c_store c') ∧ noEmptyEntry (c_store c').
Proof.
  revert c. induction ops as [|op ops IH]; intros c Hidx Hne; simpl.
  - by intros [= <-].
  - destruct (call op c) as [c1|] eqn:Hop; [|done]. intros Hrun.
    assert (routesIndexed (c_store c1) ∧ noEmptyEntry (c_store c1)) as [Hidx1 Hne1].
    { destruct op as [obj|resourceType nsname|]; simpl in Hop.
      - by apply (CaptureUpsertChange_index obj c c1).
      - by apply (CaptureDeleteChange_index resourceType nsname c c1).
      - injection Hop as <-. by rewrite Process_state. }
    by apply (IH c1).
Qed.

(** X21.  In every state that a run of calls on a new processor reaches,
    each stored HTTPRoute is stored under its own key and is among the
    routes of every Service it names in the routes-per-service index; no
    entry of the index is empty; the stored GatewayClass, if any, has the
    managed name; and the configuration is the one the processor was made
    with. *)
Theorem reached_store_is_indexed (cfg0 : ChangeProcessorConfig) (ops : list Call)
    (c : ChangeProcessorImpl) :
  run ops (NewChangeProcessorImpl cfg0) = Returns c →
  routesIndexed (c_store c) ∧ noEmptyEntry (c_store c) ∧ gcNamed c ∧ cfg c = cfg0.
Proof.
  intros Hrun.
  destruct (run_index ops (NewChangeProcessorImpl cfg0) c) as [Hidx Hne]; try done.
  destruct (run_gcNamed graph Warnings VirtualServer Statuses zeroStatuses buildGraph
              buildConfiguration buildStatuses ops (NewChangeProcessorImpl cfg0) c)
    as [Hgc Hcfg]; done.
Qed.

(** X22.  In every reached state, an upsert or a delete of a Service
    that a stored HTTPRoute names as a backend marks the store as changed;
    neither changes the store itself. *)
Theorem referenced_service_is_relevant (cfg0 : ChangeProcessorConfig) (ops : list Call)
    (c : ChangeProcessorImpl) (k : NamespacedName) (hr : v1beta1.HTTPRoute.t)
    (svc : v1.Service.t) :
  run ops (NewChangeProcessorImpl cfg0) = Returns c →
  httpRoutes (c_store c) !! k = Some hr →
  getNamespacedName (client.Service svc) ∈ getBackendServiceNamesFromRoute hr →
  ∃ c1 c2,
    CaptureUpsertChange (client.Service svc) c = Returns c1
    ∧ CaptureDeleteChange (client.Service svc) (getNamespacedName (client.Service svc)) c
      = Returns c2
    ∧ c_store c1 = c_store c ∧ storeChanged c1 = true
    ∧ c_store c2 = c_store c ∧ storeChanged c2 = true.
Proof.
  intros Hrun Hhr Hsvc.
  destruct (run_index ops (NewChangeProcessorImpl cfg0) c) as [Hidx _]; try done.
  destruct (Hidx k hr Hhr) as [_ Hsvcs].
  destruct (Hsvcs _ Hsvc) as (rs & Hrs & _).
  eexists _, _. split; [done|]. split; [done|]. simpl.
  rewrite Hrs. rewrite bool_decide_eq_true_2 by (by eexists).
  by rewrite orb_true_r.
Qed.

(** X23.  In every reached state, the upsert of a GatewayClass, Gateway
    or HTTPRoute that has no stored predecessor of the same key and an
    equal [Generation] marks the store as changed, when it returns, and
    leaves the object in the store. *)
Theorem upsert_new_or_changed_raises_flag (cfg0 : ChangeProcessorConfig)
    (ops : list Call) (c c' : ChangeProcessorImpl) (obj : client.Object) :
  run ops (NewChangeProcessorImpl cfg0) = Returns c →
  match obj with
  | client.GatewayClass _ | client.Gateway _ | client.HTTPRoute _ => True
  | _ => False
  end →
  ¬ hasPredecessor obj c →
  CaptureUpsertChange obj c = Returns c' →
  storeChanged c' = true ∧ holds obj c'.
Proof.
  intros Hrun Hkind Hnew.
  destruct (run_gcNamed graph Warnings VirtualServer Statuses zeroStatuses buildGraph
              buildConfiguration buildStatuses ops (NewChangeProcessorImpl cfg0) c)
    as [Hgc _]; try done.
  destruct obj as [o|o|o|o|o|kind o]; simpl in *; try done.
  - unfold captureGatewayClassChange. case_decide as Hname; [done|].
    intros [= <-]. split; [|done]. simpl.
    destruct (gc (c_store c)) as [prev|] eqn:Hprev; [|apply orb_true_r].
    unfold Generation; simpl. case_decide as Hgen; [|apply orb_true_r].
    destruct Hnew. exists prev. split; [done|]. split; [|done].
    rewrite Hname. by apply Hgc.
  - intros [= <-]. split; [|apply lookup_insert_eq]. simpl.
    unfold getNamespacedName in *.
    destruct (gateways (c_store c) !! _) as [prev|] eqn:Hprev; [|apply orb_true_r].
    unfold Generation; simpl. case_decide as Hgen; [|apply orb_true_r].
    destruct Hnew. by exists prev.
  - intros [= <-]. split; [|apply lookup_insert_eq]. simpl.
    unfold getNamespacedName in *.
    destruct (httpRoutes (c_store c) !! _) as [prev|] eqn:Hprev; [|apply orb_true_r].
    unfold Generation; simpl. case_decide as Hgen; [|apply orb_true_r].
    destruct Hnew. by exists prev.
Qed.

(** X24.  The flag is sticky: once the store is marked as changed, it
    stays so through every capture, and only [Process] takes the flag
    down; the [Process] that follows a run of captures from a changed
    store returns [changed = true]. *)
Theorem storeChanged_is_sticky (ops : list Call) (c c' : ChangeProcessorImpl) :
  run ops c = Returns c' →
  CallProcess ∉ ops →
  storeChanged c = true →
  storeChanged c' = true ∧ (Process c').2.1.1 = true.
Proof.
  intros Hrun Hno Hc.
  cut (storeChanged c' = true).
  { intros Hc'. split; [done|]. by rewrite Process_changed. }
  revert c Hrun Hc. induction ops as [|op ops IH]; intros c; simpl.
  - by intros [= <-].
  - destruct (call op c) as [c1|] eqn:Hop; [|done]. intros Hrun Hc.
    assert (CallProcess ∉ ops) as Hno' by (intros Hin; apply Hno; by right).
    apply (IH Hno' c1 Hrun).
    destruct op as [obj|resourceType nsname|]; simpl in Hop.
    + by apply (capture_flag_upsert obj c c1).
    + by apply (capture_flag_delete resourceType nsname c c1).
    + destruct Hno. left.
Qed.

End Runs.

Lemma upsert_never_shrinks_the_index_witness :
  let c := samples.indexedProcessor in
  let obj := client.HTTPRoute samples.hr2 in
  let c' := markChanged (captureHTTPRouteChange samples.hr2 c) in
  let svc := {| Namespace := "test"; Name := "foo" |} in
  let routesForSvc := {[ {| Namespace := "test"; Name := "hr-1" |} ]} in
  (CaptureUpsertChange obj c = Returns c'
   ∧ services (c_store c) !! svc = Some routesForSvc)
  ∧ ∃ routesForSvc', services (c_store c') !! svc = Some routesForSvc'
                     ∧ routesForSvc ⊆ routesForSvc'.
Proof.
  intros c obj c' svc routesForSvc.
  assert (CaptureUpsertChange obj c = Returns c') as H1 by reflexivity.
  assert (services (c_store c) !! svc = Some routesForSvc) as H2
    by apply lookup_singleton_eq.
  split; [by split|].
  exact (upsert_never_shrinks_the_index obj c c' svc routesForSvc H1 H2).
Defined.

Lemma httpRoute_upsert_then_delete_witness :
  let c := NewChangeProcessorImpl samples.cfg in
  let k := getNamespacedName (client.HTTPRoute samples.hr1) in
  (httpRoutes (c_store c) !! k = None
   ∧ (∀ svc routesForSvc,
        services (c_store c) !! svc = Some routesForSvc → k ∉ routesForSvc)
   ∧ noEmptyEntry (c_store c))
  ∧ ∃ c1 c2,
      CaptureUpsertChange (client.HTTPRoute samples.hr1) c = Returns c1
      ∧ CaptureDeleteChange (client.HTTPRoute samples.hr1) k c1 = Returns c2
      ∧ c_store c2 = c_store c
      ∧ storeChanged c2 = true.
Proof.
  intros c k.
  assert (httpRoutes (c_store c) !! k = None) as H1 by apply lookup_empty.
  assert (∀ svc routesForSvc,
            services (c_store c) !! svc = Some routesForSvc → k ∉ routesForSvc) as H2.
  { intros svc rs Hrs. simpl in Hrs. by rewrite lookup_empty in Hrs. }
  assert (noEmptyEntry (c_store c)) as H3.
  { intros svc rs Hrs. simpl in Hrs. by rewrite lookup_empty in Hrs. }
  split; [by repeat split|].
  exact (httpRoute_upsert_then_delete samples.hr1 samples.hr1 c H1 H2 H3).
Defined.

Lemma reached_store_is_indexed_witness :
  let run := run (store) unit unit unit tt samples.buildGraph samples.buildConfiguration
                 samples.buildStatuses in
  let c1 := markChanged (captureHTTPRouteChange samples.hr1
                           (NewChangeProcessorImpl samples.cfg)) in
  let c := {| c_store := c_store c1; storeChanged := false; cfg := cfg c1 |} in
  run [CallUpsert (client.HTTPRoute samples.hr1); CallProcess]
      (NewChangeProcessorImpl samples.cfg) = Returns c
  ∧ routesIndexed (c_store c) ∧ noEmptyEntry (c_store c) ∧ gcNamed c
  ∧ cfg c = samples.cfg.
Proof.
  intros run c1 c.
  assert (run [CallUpsert (client.HTTPRoute samples.hr1); CallProcess]
              (NewChangeProcessorImpl samples.cfg) = Returns c) as Hrun by reflexivity.
  split; [exact Hrun|].
  exact (reached_store_is_indexed store unit unit unit tt samples.buildGraph
           samples.buildConfiguration samples.buildStatuses samples.cfg _ c Hrun).
Defined.

Lemma referenced_service_is_relevant_witness :
  let run := run (store) unit unit unit tt samples.buildGraph samples.buildConfiguration
                 samples.buildStatuses in
  let c := markChanged (captureHTTPRouteChange samples.hr1
                          (NewChangeProcessorImpl samples.cfg)) in
  let k := getNamespacedName (client.HTTPRoute samples.hr1) in
  let svc := samples.svcFoo in
  (run [CallUpsert (client.HTTPRoute samples.hr1)] (NewChangeProcessorImpl samples.cfg)
   = Returns c
   ∧ httpRoutes (c_store c) !! k = Some samples.hr1
   ∧ getNamespacedName (client.Service svc)
     ∈ getBackendServiceNamesFromRoute samples.hr1)
  ∧ ∃ c1 c2,
      CaptureUpsertChange (client.Service svc) c = Returns c1
      ∧ CaptureDeleteChange (client.Service svc) (getNamespacedName (client.Service svc)) c
        = Returns c2
      ∧ c_store c1 = c_store c ∧ storeChanged c1 = true
      ∧ c_store c2 = c_store c ∧ storeChanged c2 = true.
Proof.
  intros run c k svc.
  assert (run [CallUpsert (client.HTTPRoute samples.hr1)]
              (NewChangeProcessorImpl samples.cfg) = Returns c) as H1 by reflexivity.
  assert (httpRoutes (c_store c) !! k = Some samples.hr1) as H2
    by (exact (lookup_insert_eq _ k samples.hr1)).
  assert (getNamespacedName (client.Service svc)
          ∈ getBackendServiceNamesFromRoute samples.hr1) as H3 by left.
  split; [by repeat split|].
  exact (referenced_service_is_relevant store unit unit unit tt samples.buildGraph
           samples.buildConfiguration samples.buildStatuses samples.cfg _ c k
           samples.hr1 svc H1 H2 H3).
Defined.

Lemma upsert_new_or_changed_raises_flag_witness :
  let run := run (store) unit unit unit tt samples.buildGraph samples.buildConfiguration
                 samples.buildStatuses in
  let c := NewChangeProcessorImpl samples.cfg in
  let obj := client.Gateway (samples.gateway 1) in
  let c' := markChanged (captureGatewayChange (samples.gateway 1) c) in
  (run [] c = Returns c ∧ ¬ hasPredecessor obj c ∧ CaptureUpsertChange obj c = Returns c')
  ∧ storeChanged c' = true ∧ holds obj c'.
Proof.
  intros run c obj c'.
  assert (run [] c = Returns c) as H1 by reflexivity.
  assert (¬ hasPredecessor obj c) as H2.
  { intros (prev & Hprev & _). simpl in Hprev. by rewrite lookup_empty in Hprev. }
  assert (CaptureUpsertChange obj c = Returns c') as H3 by reflexivity.
  split; [by repeat split|].
  exact (upsert_new_or_changed_raises_flag store unit unit unit tt samples.buildGraph
           samples.buildConfiguration samples.buildStatuses samples.cfg [] c c' obj
           H1 I H2 H3).
Defined.

Lemma storeChanged_is_sticky_witness :
  let run := run (store) unit unit unit tt samples.buildGraph samples.buildConfiguration
                 samples.buildStatuses in
  let c := samples.indexedProcessor in
  let ops := [CallUpsert (client.Gateway (samples.gateway 1))] in
  let c' := markChanged (captureGatewayChange (samples.gateway 1) c) in
  (run ops c = Returns c' ∧ (CallProcess ∉ ops) ∧ storeChanged c = true)
  ∧ storeChanged c' = true
  ∧ (Process store unit unit unit tt samples.buildGraph samples.buildConfiguration
             samples.buildStatuses c').2.1.1 = true.
Proof.
  intros run c ops c'.
  assert (run ops c = Returns c') as H1 by reflexivity.
  assert (CallProcess ∉ ops) as H2.
  { intros [Heq|[]%elem_of_nil]%elem_of_cons. discriminate Heq. }
  assert (storeChanged c = true) as H3 by reflexivity.
  split; [by repeat split|].
  exact (storeChanged_is_sticky store unit unit unit tt samples.buildGraph
           samples.buildConfiguration samples.buildStatuses ops c c' H1 H2 H3).
Defined.

End state_laws.
